(** * chess_com_json_parser: the record normaliser and the dataset builder

    A shallow embedding of [chess_com_json_parser.py].  Decoded JSON values
    are an inductive type, Python exceptions are an error monad, the three
    HTTP endpoints and the outcome of writing a file are a record of
    functions, and the data-frame loop threads the accumulated dictionary and
    the list of files written so far.  Console output ([print]) and timing
    ([time.time]) are not modelled. *)

From Stdlib Require Import String Ascii List ZArith Bool Arith Lia.
From Stdlib Require Import DecimalString.
From Equations Require Import Equations.
Import ListNotations.

Local Open Scope list_scope.
Local Open Scope string_scope.

(* ===================================================================== *)
(** ** Decoded JSON values *)
(* ===================================================================== *)

(** What [json.loads] returns.  A Python [float] is carried by its [repr]
    text, the only thing this program can observe of it.  A [dict] keeps its
    insertion order; lookup takes the first binding of a key. *)
#[warnings="-register-all"]
Inductive json : Type :=
| JNull  : json
| JBool  : bool -> json
| JInt   : Z -> json
| JFloat : string -> json
| JStr   : string -> json
| JList  : list json -> json
| JDict  : list (string * json) -> json.

Fixpoint dict_get {V : Type} (d : list (string * V)) (key : string) : option V :=
  match d with
  | [] => None
  | (k, v) :: rest => if String.eqb k key then Some v else dict_get rest key
  end.

(** [d[key] = v] on a Python dict: an existing key keeps its position and
    takes the new value, a new key goes to the end. *)
Fixpoint dict_setitem {V : Type} (d : list (string * V)) (key : string) (v : V)
  : list (string * V) :=
  match d with
  | [] => [(key, v)]
  | (k, w) :: rest =>
      if String.eqb k key then (k, v) :: rest
      else (k, w) :: dict_setitem rest key v
  end.

Definition dict_keys {V : Type} (d : list (string * V)) : list string :=
  map fst d.

(* ===================================================================== *)
(** ** Python exceptions *)
(* ===================================================================== *)

Inductive exn : Type :=
| KeyError
| TypeError
| AttributeError
| UnboundLocalError
| ValueError
| OSError.

Inductive result (A : Type) : Type :=
| Ok    : A -> result A
| Raise : exn -> result A.

Arguments Ok {A} _.
Arguments Raise {A} _.

Definition bind {A B : Type} (r : result A) (k : A -> result B) : result B :=
  match r with
  | Ok a => k a
  | Raise e => Raise e
  end.

Notation "x <- r ;; k" := (bind r (fun x => k))
  (at level 61, r at next level, right associativity).

(** [try: body / except KeyError: handler]; every other exception passes. *)
Definition try_except_KeyError {A : Type} (body handler : result A) : result A :=
  match body with
  | Raise KeyError => handler
  | other => other
  end.

(* ===================================================================== *)
(** ** Builtins: subscripting, [str], [str.replace], iteration *)
(* ===================================================================== *)

(** [v[key]] with a string key.  Only a dict can be subscripted by a string:
    a list or a string raises TypeError on the index type, and None, a bool
    or a number is not subscriptable at all. *)
Definition subscript (v : json) (key : string) : result json :=
  match v with
  | JDict d =>
      match dict_get d key with
      | Some x => Ok x
      | None => Raise KeyError
      end
  | _ => Raise TypeError
  end.

(** [r[key]] where [r] is itself the outcome of a subscript. *)
Definition item (r : result json) (key : string) : result json :=
  v <- r ;; subscript v key.

Definition string_of_Z (z : Z) : string :=
  NilZero.string_of_int (Z.to_int z).

Fixpoint join (sep : string) (parts : list string) : string :=
  match parts with
  | [] => ""
  | [p] => p
  | p :: rest => p ++ sep ++ join sep rest
  end.

Fixpoint string_mem (c : ascii) (s : string) : bool :=
  match s with
  | EmptyString => false
  | String a rest => if Ascii.eqb a c then true else string_mem c rest
  end.

Definition hex_digit (n : N) : ascii :=
  match String.get (N.to_nat n) "0123456789abcdef" with
  | Some c => c
  | None => "0"%char
  end.

Definition single_quote : ascii := "'"%char.
Definition double_quote : ascii := Ascii.ascii_of_nat 34.
Definition backslash : ascii := Ascii.ascii_of_nat 92.

(** One character of [repr] of a str, for the chosen quote.  Strings are
    UTF-8 bytes here.  The ASCII range is as Python has it.  Bytes from 128
    up are copied, which is what Python does for the printable code points
    they encode; a code point above ASCII that is not printable (U+00A0,
    U+2028, ...) Python writes as an escape, and such text inside a list or
    a dict is outside what this function models.  [str] of a str, of a
    number, of a bool and of None does not come here. *)
Definition repr_char (quote c : ascii) : string :=
  let n := N_of_ascii c in
  if Ascii.eqb c quote || Ascii.eqb c backslash then String backslash (String c "")
  else if N.eqb n 9 then String backslash "t"
  else if N.eqb n 10 then String backslash "n"
  else if N.eqb n 13 then String backslash "r"
  else if N.ltb n 32 || N.eqb n 127 then
    String backslash (String "x" (String (hex_digit (N.div n 16))
                                         (String (hex_digit (N.modulo n 16)) "")))
  else String c "".

Definition repr_str (s : string) : string :=
  let quote := if string_mem single_quote s && negb (string_mem double_quote s)
               then double_quote else single_quote in
  String quote
    (String.concat "" (map (repr_char quote) (list_ascii_of_string s))
     ++ String quote "").

Fixpoint py_repr (v : json) : string :=
  match v with
  | JNull => "None"
  | JBool true => "True"
  | JBool false => "False"
  | JInt z => string_of_Z z
  | JFloat r => r
  | JStr s => repr_str s
  | JList l => "[" ++ join ", " (map py_repr l) ++ "]"
  | JDict d =>
      "{" ++ join ", " (map (fun kv : string * json => match kv with
                                       | (k, w) => repr_str k ++ ": " ++ py_repr w
                                       end) d) ++ "}"
  end.

(** [str(v)]: a str is returned as it is, everything else prints as [repr]. *)
Definition py_str (v : json) : string :=
  match v with
  | JStr s => s
  | _ => py_repr v
  end.

Definition str (r : result json) : result json :=
  v <- r ;; Ok (JStr (py_str v)).

Fixpoint string_drop (n : nat) (s : string) : string :=
  match n, s with
  | O, _ => s
  | S n', EmptyString => EmptyString
  | S n', String _ rest => string_drop n' rest
  end.

(** [s.replace(old, new)] for a non-empty [old]: the occurrences of [old]
    are taken from the left and do not overlap.  After a match at the head
    [String c rest], the scan resumes behind the matched text, that is
    [length old - 1] characters into [rest]. *)
Equations? replace_nonempty (old new s : string) : string by wf (String.length s) lt :=
  replace_nonempty old new EmptyString := EmptyString;
  replace_nonempty old new (String c rest) with String.prefix old (String c rest) => {
    | true := new ++ replace_nonempty old new (string_drop (String.length old - 1) rest);
    | false := String c (replace_nonempty old new rest) }.
Proof.
  assert (Hdrop : forall n t, String.length (string_drop n t) <= String.length t)
    by (induction n as [|n IH]; intros [|a t]; simpl; auto).
  pose proof (Hdrop (String.length old - 1) rest); simpl; lia.
Qed.

(** [s.replace(old, new)].  For an empty [old] Python puts [new] before
    every character and at the end. *)
Definition str_replace (s old new : string) : string :=
  match old with
  | EmptyString =>
      new ++ String.concat "" (map (fun c => String c new) (list_ascii_of_string s))
  | String _ _ => replace_nonempty old new s
  end.

(** [v.replace(old, new)]: only a str has the method. *)
Definition method_replace (v : json) (old new : string) : result json :=
  match v with
  | JStr s => Ok (JStr (str_replace s old new))
  | _ => Raise AttributeError
  end.

(** A byte of the form 10xxxxxx, which continues a UTF-8 sequence. *)
Definition is_continuation (c : ascii) : bool :=
  let n := N_of_ascii c in N.leb 128 n && N.ltb n 192.

(** The characters of a str, each as a str of its own: a byte that is
    followed by continuation bytes forms one character with them. *)
Fixpoint code_points (s : string) : list string :=
  match s with
  | EmptyString => []
  | String c rest =>
      let chunks := code_points rest in
      match rest with
      | String c' _ =>
          if is_continuation c' then
            match chunks with
            | chunk :: others => String c chunk :: others
            | [] => [String c ""]
            end
          else String c "" :: chunks
      | EmptyString => String c "" :: chunks
      end
  end.

(** [for x in v]: a list yields its elements, a dict its keys, a str its
    characters; None, a bool or a number is not iterable. *)
Definition py_iter (v : json) : result (list json) :=
  match v with
  | JList l => Ok l
  | JDict d => Ok (map JStr (dict_keys d))
  | JStr s => Ok (map JStr (code_points s))
  | _ => Raise TypeError
  end.

(* ===================================================================== *)
(** ** The module constants *)
(* ===================================================================== *)

Definition FIDE_TITLES : list string :=
  ["GM"; "WGM"; "IM"; "WIM"; "FM"; "WFM"; "NM"; "WNM"; "CM"; "WCM"].

Definition FEATURES : list string :=
  ["rapid_rating"; "rapid_wins"; "rapid_losses"; "rapid_draws";
   "blitz_rating"; "blitz_wins"; "blitz_losses"; "blitz_draws";
   "bullet_rating"; "bullet_wins"; "bullet_losses"; "bullet_draws";
   "tactics_rating"; "puzzle_rush_rating"; "country"; "location"; "title"].

Definition country_prefix : string := "https://api.chess.com/pub/country/".

(* ===================================================================== *)
(** ** The network and the three fetch functions *)
(* ===================================================================== *)

(** What a run meets outside the program.  One field per endpoint, keyed
    by what the code appends to the URL: [Some v] is the decoded body, [None]
    stands for any exception raised inside the
    [with urllib.request.urlopen(...)] block (transport, decoding or
    [json.loads]).  An endpoint is a function: a request made twice in a run
    is taken to be answered the same way both times.  The last field is the
    file system as [to_csv] meets it: [None] when the file at the path is
    written, [Some e] when writing raises [e] (OSError for a path that
    cannot be opened). *)
Record network : Type := {
  titled_endpoint  : string -> option json;   (* /pub/titled/<title> *)
  stats_endpoint   : string -> option json;   (* /pub/player/<player>/stats *)
  profile_endpoint : string -> option json;   (* /pub/player/<player> *)
  to_csv_raises    : string -> option exn     (* path_or_buf of to_csv *)
}.

(** A local variable that the [try] block may or may not have assigned.
    [except Exception] prints and falls through, so reading the variable
    afterwards raises UnboundLocalError when the block failed. *)
Definition read_local {A : Type} (x : option A) : result A :=
  match x with
  | Some v => Ok v
  | None => Raise UnboundLocalError
  end.

Definition get_list_of_titled_players (net : network) (title : string) : result json :=
  list_of_users <- read_local (titled_endpoint net title) ;;
  subscript list_of_users "players".

Definition compute_stats (net : network) (player : string) : result json :=
  player_data <- read_local (stats_endpoint net player) ;;
  Ok player_data.

(* ===================================================================== *)
(** ** The record normaliser *)
(* ===================================================================== *)

(** [get_other_data] from the statement after the fetch on: [location_data]
    is bound to the decoded profile. *)
Definition get_other_data_from (location_data : json) : result (list json) :=
  c <- subscript location_data "country" ;;
  country <- method_replace c country_prefix "" ;;
  location <- try_except_KeyError (subscript location_data "location")
                                  (Ok (JStr "No Location Data Available")) ;;
  title <- try_except_KeyError (subscript location_data "title")
                               (Ok (JStr "None")) ;;
  Ok [country; location; title].

Definition get_other_data (net : network) (player : string) : result (list json) :=
  location_data <- read_local (profile_endpoint net player) ;;
  get_other_data_from location_data.

(** One [try: x = str(player_stats[a][b][c]) / except KeyError: x = "0"]. *)
Definition stat_or_zero (player_stats : json) (a b c : string) : result json :=
  try_except_KeyError
    (str (item (item (subscript player_stats a) b) c))
    (Ok (JStr "0")).

(** [get_relevant_information] from the first [try] on: [player_stats] is
    what [compute_stats] returned. *)
Definition get_relevant_information_from (player_stats : json) : result (list json) :=
  (* --------- Rapid Stats --------- *)
  rapid_rating <- stat_or_zero player_stats "chess_rapid" "best" "rating" ;;
  rapid_wins   <- stat_or_zero player_stats "chess_rapid" "record" "win" ;;
  rapid_losses <- stat_or_zero player_stats "chess_rapid" "record" "loss" ;;
  rapid_draws  <- stat_or_zero player_stats "chess_rapid" "record" "draw" ;;
  (* --------- Blitz Stats --------- *)
  blitz_rating <- stat_or_zero player_stats "chess_blitz" "best" "rating" ;;
  blitz_wins   <- stat_or_zero player_stats "chess_blitz" "record" "win" ;;
  blitz_losses <- stat_or_zero player_stats "chess_blitz" "record" "loss" ;;
  blitz_draws  <- stat_or_zero player_stats "chess_blitz" "record" "draw" ;;
  (* --------- Bullet Stats --------- *)
  bullet_rating <- stat_or_zero player_stats "chess_bullet" "best" "rating" ;;
  bullet_wins   <- stat_or_zero player_stats "chess_bullet" "record" "win" ;;
  bullet_losses <- stat_or_zero player_stats "chess_bullet" "record" "loss" ;;
  bullet_draws  <- stat_or_zero player_stats "chess_bullet" "record" "draw" ;;
  (* --------- Tactics Stats --------- *)
  tactics_rating <- stat_or_zero player_stats "tactics" "highest" "rating" ;;
  (* --------- Puzzle Rush Stats --------- *)
  puzzle_rush_rating <- stat_or_zero player_stats "puzzle_rush" "best" "score" ;;
  (* --------- Location Stats: [try: pass / except: pass], nothing --------- *)
  Ok [rapid_rating; rapid_wins; rapid_losses; rapid_draws;
      blitz_rating; blitz_wins; blitz_losses; blitz_draws;
      bullet_rating; bullet_wins; bullet_losses; bullet_draws;
      tactics_rating; puzzle_rush_rating].

Definition get_relevant_information (net : network) (player : string)
  : result (list json) :=
  player_stats <- compute_stats net player ;;
  get_relevant_information_from player_stats.

(** [get_relevant_information(player) + get_other_data(player)]: the left
    operand is evaluated first. *)
Definition create_entry (net : network) (player : string) : result (list json) :=
  stats_part <- get_relevant_information net player ;;
  other_part <- get_other_data net player ;;
  Ok (stats_part ++ other_part)%list.

(** The normaliser on two bundles already fetched. *)
Definition create_entry_from (player_stats location_data : json) : result (list json) :=
  stats_part <- get_relevant_information_from player_stats ;;
  other_part <- get_other_data_from location_data ;;
  Ok (stats_part ++ other_part)%list.

(* ===================================================================== *)
(** ** The dataset builder *)
(* ===================================================================== *)

Definition dataset : Type := list (string * list json).

(** A CSV file as [to_csv] is asked to write it. *)
Record artifact : Type := {
  path        : string;
  index_label : string;
  columns     : list string;
  rows        : dataset
}.

(** The number of columns of [DataFrame.from_dict(d, orient='index')]: the
    longest row, and none for an empty dict. *)
Definition frame_width (d : dataset) : nat :=
  fold_right (fun kv w => Nat.max (List.length (snd kv)) w) 0 d.

(** [final_data_frame.columns = FEATURES] raises ValueError unless the
    frame has as many columns as there are names. *)
Definition set_columns (d : dataset) (names : list string) : result dataset :=
  if Nat.eqb (frame_width d) (List.length names) then Ok d else Raise ValueError.

(** One turn of the inner loop, [current_dict[player] = create_entry(player)].
    A member that is not a str never reaches the assignment: the string
    concatenation in [compute_stats] raises inside its [try], nothing is
    bound, and the [return] raises UnboundLocalError. *)
Definition add_player (net : network) (current_dict : dataset) (player : json)
  : result dataset :=
  match player with
  | JStr name =>
      entry <- create_entry net name ;;
      Ok (dict_setitem current_dict name entry)
  | _ => Raise UnboundLocalError
  end.

Fixpoint add_players (net : network) (current_dict : dataset) (players : list json)
  : result dataset :=
  match players with
  | [] => Ok current_dict
  | player :: rest =>
      d <- add_player net current_dict player ;;
      add_players net d rest
  end.

(** [final_data_frame.to_csv(path_or_buf=..., index_label='player_name')]:
    the file as written, unless writing raises. *)
Definition to_csv (net : network) (final_data_frame : dataset) (path_or_buf : string)
  : result artifact :=
  match to_csv_raises net path_or_buf with
  | Some e => Raise e
  | None => Ok {| path := path_or_buf;
                  index_label := "player_name";
                  columns := FEATURES;
                  rows := final_data_frame |}
  end.

(** The body of [for title in fide_titles], from the dictionary as the
    previous turn left it to the dictionary and the file of this turn. *)
Definition process_title (net : network) (current_dict : dataset) (title : string)
  : result (dataset * artifact) :=
  members <- get_list_of_titled_players net title ;;
  players <- py_iter members ;;
  d <- add_players net current_dict players ;;
  final_data_frame <- set_columns d FEATURES ;;
  file <- to_csv net final_data_frame ("chess_data_" ++ title ++ ".csv") ;;
  Ok (d, file).

(** The outer loop.  The files written before an exception stay written, so
    they are returned next to the outcome. *)
Fixpoint titles_loop (net : network) (current_dict : dataset) (written : list artifact)
         (fide_titles : list string) : list artifact * result unit :=
  match fide_titles with
  | [] => (written, Ok tt)
  | title :: rest =>
      match process_title net current_dict title with
      | Ok (d, file) => titles_loop net d (written ++ [file])%list rest
      | Raise e => (written, Raise e)
      end
  end.

(** [current_dict = dict()] comes before the loop over the titles. *)
Definition create_data_frame (net : network) (fide_titles : list string)
  : list artifact * result unit :=
  let current_dict : dataset := [] in
  titles_loop net current_dict [] fide_titles.

(* ===================================================================== *)
(** ** Key paths in a bundle *)
(* ===================================================================== *)

(** The three ways a key path can sit in a decoded bundle.  The path
    resolves to a value through nested mappings; or a mapping on the way
    lacks the next key; or the walk reaches something that is not a mapping
    while keys remain. *)
Inductive key_path_value : json -> list string -> json -> Prop :=
| kpv_end v : key_path_value v [] v
| kpv_step d k ks v w :
    dict_get d k = Some v -> key_path_value v ks w ->
    key_path_value (JDict d) (k :: ks) w.

Inductive key_path_missing : json -> list string -> Prop :=
| kpm_here d k ks :
    dict_get d k = None -> key_path_missing (JDict d) (k :: ks)
| kpm_below d k ks v :
    dict_get d k = Some v -> key_path_missing v ks ->
    key_path_missing (JDict d) (k :: ks).

Definition is_mapping (v : json) : bool :=
  match v with
  | JDict _ => true
  | _ => false
  end.

Inductive key_path_blocked : json -> list string -> Prop :=
| kpb_here v k ks :
    is_mapping v = false -> key_path_blocked v (k :: ks)
| kpb_below d k ks v :
    dict_get d k = Some v -> key_path_blocked v ks ->
    key_path_blocked (JDict d) (k :: ks).

(** The fourteen statistics, as the key triples the code subscripts with,
    in the order of the returned list. *)
Definition stat_keys : list (string * string * string) :=
  [("chess_rapid", "best", "rating"); ("chess_rapid", "record", "win");
   ("chess_rapid", "record", "loss"); ("chess_rapid", "record", "draw");
   ("chess_blitz", "best", "rating"); ("chess_blitz", "record", "win");
   ("chess_blitz", "record", "loss"); ("chess_blitz", "record", "draw");
   ("chess_bullet", "best", "rating"); ("chess_bullet", "record", "win");
   ("chess_bullet", "record", "loss"); ("chess_bullet", "record", "draw");
   ("tactics", "highest", "rating"); ("puzzle_rush", "best", "score")].

Definition path_of (abc : string * string * string) : list string :=
  match abc with
  | (a, b, c) => [a; b; c]
  end.

Definition stat_paths : list (list string) := map path_of stat_keys.

(** A bundle of nested mappings: each statistic is either there or lacks a
    key somewhere along its path. *)
Definition present_or_missing (stats : json) (p : list string) : Prop :=
  (exists v, key_path_value stats p v) \/ key_path_missing stats p.

Definition nested_mappings (stats : json) : Prop :=
  forall p, In p stat_paths -> present_or_missing stats p.

(** [mapM] of the error monad: the first exception wins. *)
Fixpoint mapM {A B : Type} (f : A -> result B) (l : list A) : result (list B) :=
  match l with
  | [] => Ok []
  | x :: rest =>
      y <- f x ;;
      ys <- mapM f rest ;;
      Ok (y :: ys)
  end.

Definition stat_field (player_stats : json) (abc : string * string * string)
  : result json :=
  match abc with
  | (a, b, c) => stat_or_zero player_stats a b c
  end.

Inductive speed : Type := rapid | blitz | bullet.

Definition speed_key (sp : speed) : string :=
  match sp with
  | rapid => "chess_rapid"
  | blitz => "chess_blitz"
  | bullet => "chess_bullet"
  end.

(** Where the four fields of a speed start in the returned list. *)
Definition speed_offset (sp : speed) : nat :=
  match sp with
  | rapid => 0
  | blitz => 4
  | bullet => 8
  end.

(** What a field must be for its path: the stringified value when the path
    is present, ["0"] when it is missing. *)
Definition field_follows (stats : json) (p : list string) (field : option json) : Prop :=
  (forall v, key_path_value stats p v -> field = Some (JStr (py_str v))) /\
  (key_path_missing stats p -> field = Some (JStr "0")).

(** The same for one [try] block on its own. *)
Definition lookup_follows (stats : json) (a b c : string) : Prop :=
  (forall v, key_path_value stats [a; b; c] v ->
             stat_or_zero stats a b c = Ok (JStr (py_str v))) /\
  (key_path_missing stats [a; b; c] -> stat_or_zero stats a b c = Ok (JStr "0")).

Definition is_string (v : json) : bool :=
  match v with
  | JStr _ => true
  | _ => false
  end.

(** The chained subscript of the code, as a walk along the path. *)
Fixpoint walk (r : result json) (p : list string) : result json :=
  match p with
  | [] => r
  | k :: ks => walk (item r k) ks
  end.

(* ===================================================================== *)
(** ** The country code and the seventeen-column schema *)
(* ===================================================================== *)

(** [old] occurs somewhere in [s]. *)
Fixpoint occurs (old s : string) : bool :=
  String.prefix old s
  || match s with
     | EmptyString => false
     | String _ rest => occurs old rest
     end.

(** What [get_other_data] does to the country text. *)
Definition strip_country (c : string) : string :=
  str_replace c country_prefix "".

Definition or_default (o : option json) (dflt : string) : json :=
  match o with
  | Some v => v
  | None => JStr dflt
  end.

(** Where a column of the schema takes its value from. *)
Inductive column_source : Type :=
| from_stats (p : list string)
| from_country
| from_location
| from_title.

(** The schema as the specification words it: the seventeen columns in
    their order, the three speeds with best rating, wins, losses and draws
    each, then tactics, puzzle rush, country, location and title. *)
Definition schema : list (string * column_source) :=
  [("rapid_rating", from_stats ["chess_rapid"; "best"; "rating"]);
   ("rapid_wins", from_stats ["chess_rapid"; "record"; "win"]);
   ("rapid_losses", from_stats ["chess_rapid"; "record"; "loss"]);
   ("rapid_draws", from_stats ["chess_rapid"; "record"; "draw"]);
   ("blitz_rating", from_stats ["chess_blitz"; "best"; "rating"]);
   ("blitz_wins", from_stats ["chess_blitz"; "record"; "win"]);
   ("blitz_losses", from_stats ["chess_blitz"; "record"; "loss"]);
   ("blitz_draws", from_stats ["chess_blitz"; "record"; "draw"]);
   ("bullet_rating", from_stats ["chess_bullet"; "best"; "rating"]);
   ("bullet_wins", from_stats ["chess_bullet"; "record"; "win"]);
   ("bullet_losses", from_stats ["chess_bullet"; "record"; "loss"]);
   ("bullet_draws", from_stats ["chess_bullet"; "record"; "draw"]);
   ("tactics_rating", from_stats ["tactics"; "highest"; "rating"]);
   ("puzzle_rush_rating", from_stats ["puzzle_rush"; "best"; "score"]);
   ("country", from_country);
   ("location", from_location);
   ("title", from_title)].

(** Safe nested access: the value at the end of the path, if the path can be
    followed at all. *)
Fixpoint lookup_path (v : json) (p : list string) : option json :=
  match p with
  | [] => Some v
  | k :: ks =>
      match v with
      | JDict d =>
          match dict_get d k with
          | Some w => lookup_path w ks
          | None => None
          end
      | _ => None
      end
  end.

(** The value the specification gives a column: a statistic is the text of
    the value at its path or ["0"]; the country is the stripped country
    text, with no default; location and title have their defaults. *)
Definition schema_value (stats profile : json) (src : column_source) : option json :=
  match src with
  | from_stats p =>
      Some (match lookup_path stats p with
            | Some v => JStr (py_str v)
            | None => JStr "0"
            end)
  | from_country =>
      match lookup_path profile ["country"] with
      | Some (JStr c) => Some (JStr (strip_country c))
      | _ => None
      end
  | from_location =>
      Some (or_default (lookup_path profile ["location"]) "No Location Data Available")
  | from_title =>
      Some (or_default (lookup_path profile ["title"]) "None")
  end.

Definition schema_record (stats profile : json) : list (option json) :=
  map (fun col => schema_value stats profile (snd col)) schema.

(* ===================================================================== *)
(** ** Bundles and networks of the examples *)
(* ===================================================================== *)

Definition players_response (names : list string) : option json :=
  Some (JDict [("players", JList (map JStr names))]).

(** A profile whose country text splices the prefix into itself. *)
Definition spliced_country : string :=
  "https://api.chess.com/pub/couhttps://api.chess.com/pub/country/ntry/US".

(** A profile whose location is JSON null. *)
Definition null_location_profile : json :=
  JDict [("country", JStr "https://api.chess.com/pub/country/US");
         ("location", JNull)].

(** A network that answers every request with the same bundles. *)
Definition static_network (members stats profile : option json) : network :=
  {| titled_endpoint := fun _ => members;
     stats_endpoint := fun _ => stats;
     profile_endpoint := fun _ => profile;
     to_csv_raises := fun _ => None |}.

Definition norway_profile : json :=
  JDict [("country", JStr "https://api.chess.com/pub/country/NO")].

(** Two titles with one member each; every fetch succeeds. *)
Definition two_titles_network : network :=
  {| titled_endpoint := fun title =>
       if String.eqb title "GM" then players_response ["alice"]
       else if String.eqb title "IM" then players_response ["bob"]
       else None;
     stats_endpoint := fun _ => Some (JDict []);
     profile_endpoint := fun _ => Some norway_profile;
     to_csv_raises := fun _ => None |}.

(** One title with two members; the statistics fetch of the first fails. *)
Definition failing_fetch_network : network :=
  {| titled_endpoint := fun _ => players_response ["alice"; "bob"];
     stats_endpoint := fun player =>
       if String.eqb player "alice" then None else Some (JDict []);
     profile_endpoint := fun _ => Some norway_profile;
     to_csv_raises := fun _ => None |}.

(** File names and row keys of what a run wrote. *)
Definition written_keys (files : list artifact) : list (string * list string) :=
  map (fun f => (path f, dict_keys (rows f))) files.

(** The scenario of the specification: blitz only. *)
Definition blitz_only_stats : json :=
  JDict [("chess_blitz",
          JDict [("best", JDict [("rating", JInt 2400)]);
                 ("record", JDict [("win", JInt 10); ("loss", JInt 2);
                                   ("draw", JInt 1)])])].

(** Blitz with a best rating and no record; rapid empty. *)
Definition blitz_rating_only_stats : json :=
  JDict [("chess_rapid", JDict []);
         ("chess_blitz", JDict [("best", JDict [("rating", JInt 2400)])])].

(** Rapid is a number where a mapping is expected. *)
Definition rapid_is_a_number_stats : json :=
  JDict [("chess_rapid", JInt 5);
         ("chess_blitz", JDict [("best", JDict [("rating", JInt 2400)])])].

(* ===================================================================== *)
(** ** The whole run *)
(* ===================================================================== *)

(** The call at the end of the module, [create_data_frame(FIDE_TITLES)]. *)
Definition main (net : network) : list artifact * result unit :=
  create_data_frame net FIDE_TITLES.

(** The file name the code builds for a title. *)
Definition csv_path (title : string) : string :=
  "chess_data_" ++ title ++ ".csv".

(** A list without its repetitions, each element where it first stands. *)
Definition first_occurrences (names : list string) : list string :=
  rev (nodup string_dec (rev names)).

(** A row as [create_entry] builds it: seventeen fields, the statistics and
    the country strings. *)
Definition row_ok (r : list json) : Prop :=
  List.length r = 17 /\ forallb is_string (firstn 15 r) = true.

(** What every written file has. *)
Definition file_ok (f : artifact) : Prop :=
  index_label f = "player_name" /\
  columns f = FEATURES /\
  rows f <> [] /\
  NoDup (dict_keys (rows f)) /\
  Forall (fun kv => row_ok (snd kv)) (rows f).

(** Both bundles of a player are such that [create_entry] goes through. *)
Definition player_ok (net : network) (player : string) : Prop :=
  exists stats d c,
    stats_endpoint net player = Some stats /\
    nested_mappings stats /\
    profile_endpoint net player = Some (JDict d) /\
    dict_get d "country" = Some (JStr c).

(** The membership response of a title is a mapping whose [players] is a
    list of names, each of a player that goes through. *)
Definition title_ok (net : network) (title : string) (names : list string) : Prop :=
  (exists d, titled_endpoint net title = Some (JDict d) /\
             dict_get d "players" = Some (JList (map JStr names))) /\
  forall name, In name names -> player_ok net name.

(** What the loop keeps true of its dictionary: no key twice and every row
    a record. *)
Definition dict_inv (d : dataset) : Prop :=
  NoDup (dict_keys d) /\ Forall (fun kv => row_ok (snd kv)) d.

(** The keys of [d2] start with the keys of [d1], in the same order. *)
Definition keys_kept (d1 d2 : dataset) : Prop :=
  exists more, dict_keys d2 = (dict_keys d1 ++ more)%list.

(** A title under which one file cannot be written. *)
Definition unwritable_file_network : network :=
  {| titled_endpoint := fun _ => players_response ["alice"];
     stats_endpoint := fun _ => Some (JDict []);
     profile_endpoint := fun _ => Some norway_profile;
     to_csv_raises := fun path_or_buf =>
       if String.eqb path_or_buf "chess_data_a/b.csv" then Some OSError else None |}.

(** No proper end of [p] is also a start of [p]: two occurrences of [p] in
    a text cannot overlap. *)
Definition unbordered (p : string) : bool :=
  forallb (fun k => negb (String.prefix (string_drop k p) p))
          (seq 1 (String.length p - 1)).

(** Members with a repetition, and a title without members. *)
Definition repeated_member_network : network :=
  {| titled_endpoint := fun title =>
       if String.eqb title "GM" then players_response ["alice"; "bob"; "alice"]
       else if String.eqb title "IM" then players_response []
       else None;
     stats_endpoint := fun _ => Some (JDict []);
     profile_endpoint := fun _ => Some norway_profile;
     to_csv_raises := fun _ => None |}.

(* ===================================================================== *)
(** ** The builtins on examples *)
(* ===================================================================== *)

Example code_points_ex :
  code_points (String (ascii_of_nat 195) (String (ascii_of_nat 169) "b"))
  = [String (ascii_of_nat 195) (String (ascii_of_nat 169) ""); "b"].
Proof. reflexivity. Qed.

Example str_replace_ex1 : str_replace "abcabc" "bc" "X" = "aXaX".
Proof. reflexivity. Qed.

Example str_replace_ex2 : str_replace "aaa" "aa" "b" = "ba".
Proof. reflexivity. Qed.

Example str_replace_ex3 : str_replace "abc" "" "-" = "-a-b-c-".
Proof. reflexivity. Qed.

Example py_repr_ex :
  py_repr (JDict [("a", JList [JInt 1; JStr "it's"; JNull]); ("b", JInt (-3))])
  = String.concat "" ["{'a': [1, "; String double_quote "it's";
                      String double_quote ", None], 'b': -3}"].
Proof. reflexivity. Qed.

(* ===================================================================== *)
(** ** Key paths and a single statistic *)
(* ===================================================================== *)

Lemma key_path_value_inj s p v w :
  key_path_value s p v -> key_path_value s p w -> v = w.
Proof.
  intros Hv; revert w; induction Hv as [v|d k ks x v Hk Hx IH]; intros w Hw.
  - inversion Hw; reflexivity.
  - inversion Hw; subst. apply IH. congruence.
Qed.

Lemma key_path_value_not_missing s p v :
  key_path_value s p v -> ~ key_path_missing s p.
Proof.
  induction 1 as [v|d k ks x v Hk Hx IH]; intros Hm; inversion Hm; subst.
  - congruence.
  - apply IH. congruence.
Qed.

Lemma key_path_blocked_not_missing s p :
  key_path_blocked s p -> ~ key_path_missing s p.
Proof.
  induction 1 as [v k ks Hv|d k ks v Hk Hb IH]; intros Hm; inversion Hm; subst;
    try discriminate.
  - congruence.
  - apply IH. congruence.
Qed.

Lemma key_path_blocked_not_value s p v :
  key_path_blocked s p -> ~ key_path_value s p v.
Proof.
  induction 1 as [x k ks Hx|d k ks x Hk Hb IH]; intros Hv; inversion Hv; subst;
    try discriminate.
  apply IH. congruence.
Qed.

(** Every path is in exactly one of the three situations. *)
Lemma key_path_cases s p :
  (exists v, key_path_value s p v) \/ key_path_missing s p \/ key_path_blocked s p.
Proof.
  revert s; induction p as [|k ks IH]; intros s.
  - left; exists s; constructor.
  - destruct s as [| b | z | f | t | l | d];
      try (right; right; constructor; reflexivity).
    destruct (dict_get d k) as [v|] eqn:Hk.
    + destruct (IH v) as [[w Hw] | [Hm | Hb]].
      * left; exists w; econstructor; eassumption.
      * right; left; eapply kpm_below; eassumption.
      * right; right; eapply kpb_below; eassumption.
    + right; left; constructor; assumption.
Qed.

Lemma present_or_missing_not_blocked s p :
  present_or_missing s p <-> ~ key_path_blocked s p.
Proof.
  split.
  - intros [[v Hv] | Hm] Hb.
    + exact (key_path_blocked_not_value _ _ _ Hb Hv).
    + exact (key_path_blocked_not_missing _ _ Hb Hm).
  - intros Hn. destruct (key_path_cases s p) as [Hv | [Hm | Hb]].
    + left; exact Hv.
    + right; exact Hm.
    + contradiction.
Qed.

Lemma walk_raise e p : walk (Raise e) p = Raise e.
Proof. induction p as [|k ks IH]; simpl; auto. Qed.

Lemma walk_value s p v :
  key_path_value s p v -> walk (Ok s) p = Ok v.
Proof.
  induction 1 as [v|d k ks x v Hk Hx IH]; simpl; auto.
  rewrite Hk. exact IH.
Qed.

Lemma walk_missing s p :
  key_path_missing s p -> walk (Ok s) p = Raise KeyError.
Proof.
  induction 1 as [d k ks Hk|d k ks v Hk Hm IH]; simpl; rewrite Hk.
  - apply walk_raise.
  - exact IH.
Qed.

Lemma walk_blocked s p :
  key_path_blocked s p -> walk (Ok s) p = Raise TypeError.
Proof.
  induction 1 as [v k ks Hv|d k ks v Hk Hb IH]; simpl.
  - destruct v; try discriminate; apply walk_raise.
  - rewrite Hk. exact IH.
Qed.

Lemma stat_field_walk s abc :
  stat_field s abc = try_except_KeyError (str (walk (Ok s) (path_of abc))) (Ok (JStr "0")).
Proof. destruct abc as [[a b] c]. reflexivity. Qed.

Lemma stat_field_value s abc v :
  key_path_value s (path_of abc) v -> stat_field s abc = Ok (JStr (py_str v)).
Proof. intros H. rewrite stat_field_walk, (walk_value _ _ _ H). reflexivity. Qed.

Lemma stat_field_missing s abc :
  key_path_missing s (path_of abc) -> stat_field s abc = Ok (JStr "0").
Proof. intros H. rewrite stat_field_walk, (walk_missing _ _ H). reflexivity. Qed.

Lemma stat_field_blocked s abc :
  key_path_blocked s (path_of abc) -> stat_field s abc = Raise TypeError.
Proof. intros H. rewrite stat_field_walk, (walk_blocked _ _ H). reflexivity. Qed.

(** A statistic either comes out as a string or raises TypeError. *)
Lemma stat_field_cases s abc :
  (exists t, stat_field s abc = Ok (JStr t)) \/ stat_field s abc = Raise TypeError.
Proof.
  destruct (key_path_cases s (path_of abc)) as [[v Hv] | [Hm | Hb]].
  - left; eexists; apply stat_field_value; eassumption.
  - left; eexists; apply stat_field_missing; assumption.
  - right; apply stat_field_blocked; assumption.
Qed.

(** The fourteen [try] blocks are one [mapM] over the key triples. *)
Lemma get_relevant_information_from_mapM s :
  get_relevant_information_from s = mapM (stat_field s) stat_keys.
Proof.
  unfold get_relevant_information_from, stat_keys, mapM, stat_field.
  repeat match goal with
         | |- context [stat_or_zero s ?a ?b ?c] =>
             destruct (stat_or_zero s a b c); simpl; [|reflexivity]
         end.
  reflexivity.
Qed.

Lemma mapM_Ok_Forall2 {A B : Type} (f : A -> result B) l r :
  mapM f l = Ok r <-> Forall2 (fun x y => f x = Ok y) l r.
Proof.
  revert r; induction l as [|x l IH]; intros r; simpl.
  - split; intros H; inversion H; constructor.
  - split.
    + destruct (f x) as [y|e] eqn:Hx; simpl; [|discriminate].
      destruct (mapM f l) as [ys|e] eqn:Hl; simpl; [|discriminate].
      intros H; inversion H; subst. constructor; [assumption | apply IH; reflexivity].
    + intros H; inversion H as [|? y ? ys Hx Hl]; subst.
      rewrite Hx; simpl. apply IH in Hl. rewrite Hl. reflexivity.
Qed.

Lemma mapM_all_Ok {A B : Type} (f : A -> result B) l :
  (forall x, In x l -> exists y, f x = Ok y) -> exists r, mapM f l = Ok r.
Proof.
  induction l as [|x l IH]; intros H; simpl.
  - eexists; reflexivity.
  - destruct (H x (or_introl eq_refl)) as [y Hy].
    destruct IH as [ys Hys]; [intros; apply H; right; assumption|].
    rewrite Hy, Hys. eexists; reflexivity.
Qed.

(** When every element gives a result or the same exception [e], and some
    element gives [e], the whole [mapM] raises [e]. *)
Lemma mapM_Raise {A B : Type} (f : A -> result B) l e x :
  (forall z, In z l -> (exists y, f z = Ok y) \/ f z = Raise e) ->
  In x l -> f x = Raise e -> mapM f l = Raise e.
Proof.
  induction l as [|z l IH]; intros Hall Hin Hx; simpl; [contradiction|].
  destruct (Hall z (or_introl eq_refl)) as [[y Hy] | Hz].
  - rewrite Hy; simpl. destruct Hin as [-> | Hin]; [congruence|].
    rewrite IH; auto. intros; apply Hall; right; assumption.
  - rewrite Hz; reflexivity.
Qed.

Lemma in_stat_paths p :
  In p stat_paths -> exists abc, In abc stat_keys /\ p = path_of abc.
Proof.
  unfold stat_paths. rewrite in_map_iff. intros [abc [E H]]; eauto.
Qed.

Lemma nested_mappings_Ok s :
  nested_mappings s -> exists r, get_relevant_information_from s = Ok r.
Proof.
  intros H. rewrite get_relevant_information_from_mapM.
  apply mapM_all_Ok. intros abc Hin.
  destruct (H (path_of abc)) as [[v Hv] | Hm].
  - apply in_map; assumption.
  - eexists; apply stat_field_value; eassumption.
  - eexists; apply stat_field_missing; assumption.
Qed.

Lemma get_relevant_information_fetch net player stats :
  stats_endpoint net player = Some stats ->
  get_relevant_information net player = get_relevant_information_from stats.
Proof.
  intros H. unfold get_relevant_information, compute_stats. rewrite H. reflexivity.
Qed.

Lemma stat_field_follows s abc y :
  stat_field s abc = Ok y -> field_follows s (path_of abc) (Some y).
Proof.
  intros H; split.
  - intros v Hv. rewrite (stat_field_value _ _ _ Hv) in H. congruence.
  - intros Hm. rewrite (stat_field_missing _ _ Hm) in H. congruence.
Qed.

Lemma stat_field_origin s abc y :
  stat_field s abc = Ok y ->
  (key_path_missing s (path_of abc) /\ y = JStr "0") \/
  (exists v, key_path_value s (path_of abc) v /\ y = JStr (py_str v)).
Proof.
  intros H. destruct (key_path_cases s (path_of abc)) as [[v Hv] | [Hm | Hb]].
  - right; exists v; split; [assumption|].
    rewrite (stat_field_value _ _ _ Hv) in H. congruence.
  - left; split; [assumption|].
    rewrite (stat_field_missing _ _ Hm) in H. congruence.
  - rewrite (stat_field_blocked _ _ Hb) in H. discriminate.
Qed.

Ltac in_list := simpl; repeat first [left; reflexivity | right].

Ltac invert_Forall2 :=
  repeat match goal with
         | H : Forall2 _ (_ :: _) _ |- _ => inversion H; clear H; subst
         | H : Forall2 _ [] _ |- _ => inversion H; clear H; subst
         end.

(* ===================================================================== *)
(** ** The statistics part of the record *)
(* ===================================================================== *)

(** C1: when every one of the fourteen key paths of the statistics bundle
    is missing (a key is absent from the bundle or from a mapping below
    it), [get_relevant_information] returns the list of fourteen ["0"]. *)
Theorem all_paths_missing_gives_defaults (net : network) (player : string) (stats : json) :
  stats_endpoint net player = Some stats ->
  (forall p, In p stat_paths -> key_path_missing stats p) ->
  get_relevant_information net player
  = Ok [JStr "0"; JStr "0"; JStr "0"; JStr "0";
        JStr "0"; JStr "0"; JStr "0"; JStr "0";
        JStr "0"; JStr "0"; JStr "0"; JStr "0";
        JStr "0"; JStr "0"].
Proof.
  intros Hfetch Hmiss.
  rewrite (get_relevant_information_fetch _ _ _ Hfetch),
    get_relevant_information_from_mapM.
  unfold stat_keys; cbn [mapM].
  rewrite !stat_field_missing by (apply Hmiss; in_list).
  reflexivity.
Qed.

(** C2: for each speed the best rating, the wins, the losses and the draws
    are looked up one by one.  In every bundle each of the four [try] blocks
    gives the stringified value when its own path is present and ["0"] when
    its own path is missing, whatever happens to the other three; and for a
    bundle of nested mappings [get_relevant_information] returns the list
    that has these values at the four places of the speed. *)
Theorem per_speed_lookups_independent (net : network) (player : string) (stats : json) :
  stats_endpoint net player = Some stats ->
  (forall sp : speed,
      lookup_follows stats (speed_key sp) "best" "rating" /\
      lookup_follows stats (speed_key sp) "record" "win" /\
      lookup_follows stats (speed_key sp) "record" "loss" /\
      lookup_follows stats (speed_key sp) "record" "draw") /\
  (nested_mappings stats ->
   exists r,
     get_relevant_information net player = Ok r /\
     forall sp : speed,
       field_follows stats [speed_key sp; "best"; "rating"]
                     (nth_error r (speed_offset sp)) /\
       field_follows stats [speed_key sp; "record"; "win"]
                     (nth_error r (speed_offset sp + 1)) /\
       field_follows stats [speed_key sp; "record"; "loss"]
                     (nth_error r (speed_offset sp + 2)) /\
       field_follows stats [speed_key sp; "record"; "draw"]
                     (nth_error r (speed_offset sp + 3))).
Proof.
  intros Hfetch. split.
  - intros sp. refine (conj _ (conj _ (conj _ _)));
      match goal with
      | |- lookup_follows _ ?a ?b ?c =>
          split;
          [ intros v Hv; exact (stat_field_value stats (a, b, c) v Hv)
          | intros Hm; exact (stat_field_missing stats (a, b, c) Hm) ]
      end.
  - intros Hnest.
    rewrite (get_relevant_information_fetch _ _ _ Hfetch).
    destruct (nested_mappings_Ok _ Hnest) as [r Hr].
    exists r; split; [assumption|].
    rewrite get_relevant_information_from_mapM in Hr.
    apply mapM_Ok_Forall2 in Hr. unfold stat_keys in Hr. invert_Forall2.
    intros [ | | ]; simpl; refine (conj _ (conj _ (conj _ _)));
      match goal with
      | |- field_follows _ [?a; ?b; ?c] (Some _) =>
          apply (stat_field_follows stats (a, b, c)); assumption
      end.
Qed.

(** C10: the ["0"] default belongs to a missing key only.  When one of the
    fourteen paths runs into a value that is not a mapping while keys
    remain, [get_relevant_information] raises TypeError; and in a returned
    list every field is ["0"] for a missing path or the stringified value
    of a present one. *)
Theorem wrongly_typed_component_raises (net : network) (player : string) (stats : json) :
  stats_endpoint net player = Some stats ->
  ((exists p, In p stat_paths /\ key_path_blocked stats p) ->
   get_relevant_information net player = Raise TypeError) /\
  (forall r,
      get_relevant_information net player = Ok r ->
      Forall2 (fun p y =>
                 (key_path_missing stats p /\ y = JStr "0") \/
                 (exists v, key_path_value stats p v /\ y = JStr (py_str v)))
              stat_paths r).
Proof.
  intros Hfetch.
  rewrite (get_relevant_information_fetch _ _ _ Hfetch),
    get_relevant_information_from_mapM.
  split.
  - intros [p [Hin Hb]].
    destruct (in_stat_paths _ Hin) as [abc [Habc ->]].
    apply mapM_Raise with (x := abc); auto using stat_field_blocked.
    intros z _. destruct (stat_field_cases stats z) as [[t Ht] | Ht]; eauto.
  - intros r Hr. apply mapM_Ok_Forall2 in Hr.
    unfold stat_paths. revert r Hr.
    induction stat_keys as [|abc l IH]; intros r Hr; inversion Hr; subst; simpl.
    + constructor.
    + constructor; [apply stat_field_origin; assumption | apply IH; assumption].
Qed.

(* ===================================================================== *)
(** ** The country code *)
(* ===================================================================== *)

Lemma prefix_append (a s : string) : String.prefix a (a ++ s) = true.
Proof.
  induction a as [|c a IH]; simpl.
  - destruct s; reflexivity.
  - destruct (ascii_dec c c); [assumption | congruence].
Qed.

Lemma prefix_split (a s : string) :
  String.prefix a s = true -> exists b, s = a ++ b.
Proof.
  revert s; induction a as [|c a IH]; intros s H.
  - exists s; reflexivity.
  - destruct s as [|c' s]; simpl in H; [discriminate|].
    destruct (ascii_dec c c'); [subst|discriminate].
    destruct (IH _ H) as [b ->]. exists b; reflexivity.
Qed.

Lemma occurs_prefix (old s : string) :
  String.prefix old s = true -> occurs old s = true.
Proof. intros H. destruct s; cbn [occurs]; rewrite H; reflexivity. Qed.

Lemma occurs_append (old a b : string) : occurs old (a ++ old ++ b) = true.
Proof.
  induction a as [|c a IH]; simpl.
  - apply occurs_prefix, prefix_append.
  - rewrite IH. apply orb_true_r.
Qed.

Lemma occurs_split (old s : string) :
  occurs old s = true -> exists a b, s = a ++ old ++ b.
Proof.
  induction s as [|c s IH]; cbn [occurs]; rewrite orb_true_iff; intros [H | H].
  - apply prefix_split in H. destruct H as [b ->]. exists "", b; reflexivity.
  - discriminate.
  - apply prefix_split in H. destruct H as [b ->]. exists "", b; reflexivity.
  - destruct (IH H) as [a [b ->]]. exists (String c a), b; reflexivity.
Qed.

Lemma string_drop_append (a s : string) : string_drop (String.length a) (a ++ s) = s.
Proof. induction a as [|c a IH]; simpl; auto. Qed.

(** Text in which [old] does not occur is left alone. *)
Lemma replace_nonempty_absent (old new s : string) :
  occurs old s = false -> replace_nonempty old new s = s.
Proof.
  induction s as [|c s IH]; intros H; simp replace_nonempty; [reflexivity|].
  cbn [occurs] in H. apply orb_false_iff in H. destruct H as [Hp Ho].
  rewrite Hp. simpl. rewrite IH; auto.
Qed.

(** A match at the head is replaced and the scan goes on behind it. *)
Lemma replace_nonempty_head (o : ascii) (olds new s : string) :
  replace_nonempty (String o olds) new (String o olds ++ s)
  = new ++ replace_nonempty (String o olds) new s.
Proof.
  change (String o olds ++ s) with (String o (olds ++ s)).
  simp replace_nonempty.
  change (String o (olds ++ s)) with (String o olds ++ s).
  rewrite prefix_append. simpl.
  rewrite Nat.sub_0_r, string_drop_append. reflexivity.
Qed.

Lemma strip_country_absent (code : string) :
  occurs country_prefix code = false -> strip_country code = code.
Proof. apply replace_nonempty_absent. Qed.

Lemma strip_country_head (code : string) :
  strip_country (country_prefix ++ code) = strip_country code.
Proof.
  unfold strip_country, str_replace, country_prefix.
  rewrite replace_nonempty_head. reflexivity.
Qed.

(* ===================================================================== *)
(** ** The profile part of the record *)
(* ===================================================================== *)

(** [get_other_data] on a profile that is a mapping, by what [country] is. *)
Lemma get_other_data_from_dict (d : list (string * json)) :
  get_other_data_from (JDict d)
  = match dict_get d "country" with
    | None => Raise KeyError
    | Some (JStr c) =>
        Ok [JStr (strip_country c);
            or_default (dict_get d "location") "No Location Data Available";
            or_default (dict_get d "title") "None"]
    | Some _ => Raise AttributeError
    end.
Proof.
  unfold get_other_data_from, subscript.
  destruct (dict_get d "country") as [[| b | z | f | c | l | m]|]; try reflexivity.
  destruct (dict_get d "location"), (dict_get d "title"); reflexivity.
Qed.

Lemma get_other_data_from_Ok (profile : json) (r : list json) :
  get_other_data_from profile = Ok r ->
  exists d c,
    profile = JDict d /\ dict_get d "country" = Some (JStr c) /\
    r = [JStr (strip_country c);
         or_default (dict_get d "location") "No Location Data Available";
         or_default (dict_get d "title") "None"].
Proof.
  destruct profile as [| b | z | f | t | l | d]; try (cbv; discriminate).
  rewrite get_other_data_from_dict.
  destruct (dict_get d "country") as [[| b | z | f | c | l | m]|] eqn:Hc;
    try discriminate.
  intros H; inversion H; subst. exists d, c. repeat split. assumption.
Qed.

Lemma get_other_data_fetch net player profile :
  profile_endpoint net player = Some profile ->
  get_other_data net player = get_other_data_from profile.
Proof. intros H. unfold get_other_data. rewrite H. reflexivity. Qed.

Lemma create_entry_fetch net player stats profile :
  stats_endpoint net player = Some stats ->
  profile_endpoint net player = Some profile ->
  create_entry net player = create_entry_from stats profile.
Proof.
  intros Hs Hp. unfold create_entry, create_entry_from.
  rewrite (get_relevant_information_fetch _ _ _ Hs), (get_other_data_fetch _ _ _ Hp).
  reflexivity.
Qed.

Lemma create_entry_from_Ok stats profile r :
  create_entry_from stats profile = Ok r ->
  exists r1 r2,
    get_relevant_information_from stats = Ok r1 /\
    get_other_data_from profile = Ok r2 /\ r = (r1 ++ r2)%list.
Proof.
  unfold create_entry_from.
  destruct (get_relevant_information_from stats) as [r1|]; [simpl|discriminate].
  destruct (get_other_data_from profile) as [r2|]; [simpl|discriminate].
  intros H; inversion H. eauto.
Qed.

(** C5, as stated, fails: stripping is not idempotent on every text.
    Removing the occurrence inside [spliced_country] joins the two halves
    around it into a new occurrence, which a second stripping removes. *)
Lemma strip_country_not_idempotent :
  get_other_data_from (JDict [("country", JStr spliced_country)])
  = Ok [JStr "https://api.chess.com/pub/country/US";
        JStr "No Location Data Available"; JStr "None"] /\
  strip_country spliced_country = "https://api.chess.com/pub/country/US" /\
  strip_country (strip_country spliced_country) = "US" /\
  strip_country (strip_country spliced_country) <> strip_country spliced_country.
Proof.
  repeat split; try (vm_compute; reflexivity).
  vm_compute. discriminate.
Qed.


(** C6: for a profile mapping with neither [location] nor [title],
    [get_other_data] returns, for a country text [c], the stripped country
    followed by ["No Location Data Available"] and ["None"]; and whatever it
    returns has these two values in its second and third place. *)
Theorem only_country_gives_defaults (net : network) (player : string)
        (d : list (string * json)) :
  profile_endpoint net player = Some (JDict d) ->
  dict_get d "location" = None ->
  dict_get d "title" = None ->
  (forall c, dict_get d "country" = Some (JStr c) ->
             get_other_data net player
             = Ok [JStr (strip_country c);
                   JStr "No Location Data Available"; JStr "None"]) /\
  (forall r, get_other_data net player = Ok r ->
             nth_error r 1 = Some (JStr "No Location Data Available") /\
             nth_error r 2 = Some (JStr "None")).
Proof.
  intros Hfetch Hloc Htitle.
  rewrite (get_other_data_fetch _ _ _ Hfetch). split.
  - intros c Hc. rewrite get_other_data_from_dict, Hc, Hloc, Htitle. reflexivity.
  - intros r Hr. apply get_other_data_from_Ok in Hr.
    destruct Hr as [d' [c [E [_ ->]]]]. inversion E; subst d'.
    rewrite Hloc, Htitle. split; reflexivity.
Qed.

Lemma blocked_or_nested (s : json) :
  (exists p, In p stat_paths /\ key_path_blocked s p) \/ nested_mappings s.
Proof.
  unfold nested_mappings. induction stat_paths as [|q l IH].
  - right; intros p [].
  - destruct IH as [[p [Hin Hb]] | Hall].
    + left; exists p; split; [right; assumption | assumption].
    + destruct (key_path_cases s q) as [Hv | [Hm | Hb]].
      * right; intros p [<- | Hin]; [left; assumption | auto].
      * right; intros p [<- | Hin]; [right; assumption | auto].
      * left; exists q; split; [left; reflexivity | assumption].
Qed.

(** C7: a profile mapping without [country] makes [get_other_data], and
    with it [create_entry], raise KeyError: no default stands in.  With a
    country text in place, [get_other_data] returns whether or not
    [location] and [title] are there, and [create_entry] returns whichever
    of the fourteen statistics paths are missing.  A missing key never
    leaves [get_relevant_information] as a failure: when it raises, the
    exception is TypeError and some path runs into a value that is not a
    mapping. *)
Theorem missing_country_raises (net : network) (player : string) (stats : json)
        (d : list (string * json)) :
  stats_endpoint net player = Some stats ->
  profile_endpoint net player = Some (JDict d) ->
  (dict_get d "country" = None ->
   get_other_data net player = Raise KeyError /\
   (nested_mappings stats -> create_entry net player = Raise KeyError)) /\
  (forall c, dict_get d "country" = Some (JStr c) ->
             (exists r, get_other_data net player = Ok r) /\
             (nested_mappings stats -> exists r, create_entry net player = Ok r)) /\
  (forall e, get_relevant_information net player = Raise e ->
             e = TypeError /\
             exists p, In p stat_paths /\ key_path_blocked stats p).
Proof.
  intros Hs Hp.
  rewrite (get_other_data_fetch _ _ _ Hp), (create_entry_fetch _ _ _ _ Hs Hp),
    (get_relevant_information_fetch _ _ _ Hs).
  unfold create_entry_from. rewrite get_other_data_from_dict.
  split; [|split].
  - intros Hc; rewrite Hc. split; [reflexivity|].
    intros Hn. destruct (nested_mappings_Ok _ Hn) as [r1 ->]. reflexivity.
  - intros c Hc; rewrite Hc. split; [eexists; reflexivity|].
    intros Hn. destruct (nested_mappings_Ok _ Hn) as [r1 ->]. eexists; reflexivity.
  - intros e He. destruct (blocked_or_nested stats) as [[p [Hin Hb]] | Hn].
    + split; [|exists p; auto].
      destruct (in_stat_paths _ Hin) as [abc [Habc ->]].
      rewrite get_relevant_information_from_mapM in He.
      rewrite (mapM_Raise (stat_field stats) stat_keys TypeError abc) in He;
        auto using stat_field_blocked; [congruence|].
      intros z _. destruct (stat_field_cases stats z) as [[t Ht] | Ht]; eauto.
    + destruct (nested_mappings_Ok _ Hn) as [r Hr]. congruence.
Qed.

(* ===================================================================== *)
(** ** The seventeen-column schema *)
(* ===================================================================== *)

Lemma lookup_path_value s p v : key_path_value s p v -> lookup_path s p = Some v.
Proof.
  induction 1 as [v|d k ks x v Hk Hx IH]; [destruct v; reflexivity|].
  simpl. rewrite Hk. exact IH.
Qed.

Lemma lookup_path_missing s p : key_path_missing s p -> lookup_path s p = None.
Proof.
  induction 1 as [d k ks Hk|d k ks v Hk Hm IH]; simpl; rewrite Hk; auto.
Qed.

Lemma stat_field_schema s abc y :
  stat_field s abc = Ok y ->
  y = match lookup_path s (path_of abc) with
      | Some v => JStr (py_str v)
      | None => JStr "0"
      end.
Proof.
  intros H. destruct (stat_field_origin _ _ _ H) as [[Hm ->] | [v [Hv ->]]].
  - rewrite (lookup_path_missing _ _ Hm). reflexivity.
  - rewrite (lookup_path_value _ _ _ Hv). reflexivity.
Qed.

Lemma stat_field_is_string s abc y :
  stat_field s abc = Ok y -> is_string y = true.
Proof.
  intros H. destruct (stat_field_cases s abc) as [[t Ht] | Ht]; rewrite Ht in H.
  - inversion H; reflexivity.
  - discriminate.
Qed.

(** C8: the record [create_entry] returns has seventeen fields, and they
    are, place by place, the values of the schema columns in the order of
    [FEATURES], whichever paths of the two bundles are present; and it does
    return one for every bundle of nested mappings and every profile
    mapping with a country text. *)
Theorem record_follows_schema (net : network) (player : string) (stats profile : json) :
  stats_endpoint net player = Some stats ->
  profile_endpoint net player = Some profile ->
  map fst schema = FEATURES /\
  (forall r, create_entry net player = Ok r ->
             List.length r = 17 /\ map Some r = schema_record stats profile) /\
  (forall d c, nested_mappings stats ->
               profile = JDict d -> dict_get d "country" = Some (JStr c) ->
               exists r, create_entry net player = Ok r).
Proof.
  intros Hs Hp. rewrite (create_entry_fetch _ _ _ _ Hs Hp).
  split; [reflexivity|]. split.
  - intros r Hr.
    destruct (create_entry_from_Ok _ _ _ Hr) as [r1 [r2 [H1 [H2 ->]]]].
    destruct (get_other_data_from_Ok _ _ H2) as [d [c [-> [Hc ->]]]].
    rewrite get_relevant_information_from_mapM in H1.
    apply mapM_Ok_Forall2 in H1. unfold stat_keys in H1. invert_Forall2.
    repeat match goal with
           | H : stat_field _ _ = Ok ?y |- _ =>
               apply stat_field_schema in H; rewrite H; clear H
           end.
    split; [reflexivity|].
    unfold schema_record, schema. cbn [map snd app schema_value path_of].
    cbn [lookup_path]. rewrite Hc.
    destruct (dict_get d "location"), (dict_get d "title"); reflexivity.
  - intros d c Hn -> Hc. unfold create_entry_from.
    destruct (nested_mappings_Ok _ Hn) as [r1 ->].
    rewrite get_other_data_from_dict, Hc. eexists; reflexivity.
Qed.

(** C9, as stated, fails: [location] is passed on as the profile has it.
    A profile with a null location gives a record whose sixteenth field is
    None, not a string. *)
Lemma null_location_is_not_a_string :
  create_entry (static_network None (Some (JDict [])) (Some null_location_profile))
               "player"
  = Ok [JStr "0"; JStr "0"; JStr "0"; JStr "0";
        JStr "0"; JStr "0"; JStr "0"; JStr "0";
        JStr "0"; JStr "0"; JStr "0"; JStr "0";
        JStr "0"; JStr "0"; JStr "US"; JNull; JStr "None"] /\
  is_string JNull = false.
Proof. split; reflexivity. Qed.

(** C9, amended: in every record [create_entry] returns there are
    seventeen fields; the fourteen statistics and the country are strings;
    location and title are the profile's own values for these keys,
    unchanged and of whatever type, or their default strings when the keys
    are missing. *)
Theorem record_field_types (net : network) (player : string) (stats profile : json)
        (r : list json) :
  stats_endpoint net player = Some stats ->
  profile_endpoint net player = Some profile ->
  create_entry net player = Ok r ->
  List.length r = 17 /\
  forallb is_string (firstn 15 r) = true /\
  exists d,
    profile = JDict d /\
    nth_error r 15
    = Some (or_default (dict_get d "location") "No Location Data Available") /\
    nth_error r 16 = Some (or_default (dict_get d "title") "None").
Proof.
  intros Hs Hp Hr. rewrite (create_entry_fetch _ _ _ _ Hs Hp) in Hr.
  destruct (create_entry_from_Ok _ _ _ Hr) as [r1 [r2 [H1 [H2 ->]]]].
  destruct (get_other_data_from_Ok _ _ H2) as [d [c [-> [Hc ->]]]].
  rewrite get_relevant_information_from_mapM in H1.
  apply mapM_Ok_Forall2 in H1. unfold stat_keys in H1. invert_Forall2.
  repeat match goal with
         | H : stat_field _ _ = Ok ?y |- _ =>
             apply stat_field_is_string in H; destruct y; try discriminate; clear H
         end.
  split; [reflexivity|]. split; [reflexivity|].
  exists d. repeat split.
Qed.

Lemma record_field_types_witness :
  exists r,
    create_entry (static_network None (Some (JDict [])) (Some null_location_profile))
                 "player" = Ok r /\
    List.length r = 17 /\
    forallb is_string (firstn 15 r) = true /\
    nth_error r 15 = Some JNull.
Proof.
  eexists. split; [reflexivity|].
  destruct (record_field_types
              (static_network None (Some (JDict [])) (Some null_location_profile))
              "player" (JDict []) null_location_profile _
              eq_refl eq_refl eq_refl) as [Hlen [Hstr [d [Hd [Hloc _]]]]].
  split; [exact Hlen|]. split; [exact Hstr|].
  inversion Hd; subst d. exact Hloc.
Defined.

(* ===================================================================== *)
(** ** The dataset builder, proved *)
(* ===================================================================== *)

Lemma dict_setitem_keys {V : Type} (d : list (string * V)) k v :
  dict_keys (dict_setitem d k v)
  = if existsb (fun k' => String.eqb k' k) (dict_keys d)
    then dict_keys d else (dict_keys d ++ [k])%list.
Proof.
  unfold dict_keys.
  induction d as [|[k' w] d IH]; simpl; [reflexivity|].
  destruct (String.eqb k' k); simpl; [reflexivity|].
  rewrite IH.
  destruct (existsb _ (map fst d)); reflexivity.
Qed.

Lemma dict_setitem_keeps_keys {V : Type} (d : list (string * V)) k v :
  incl (dict_keys d) (dict_keys (dict_setitem d k v)).
Proof.
  rewrite dict_setitem_keys. destruct (existsb _ _).
  - apply incl_refl.
  - apply incl_appl, incl_refl.
Qed.

Lemma dict_setitem_NoDup {V : Type} (d : list (string * V)) k v :
  NoDup (dict_keys d) -> NoDup (dict_keys (dict_setitem d k v)).
Proof.
  intros H. rewrite dict_setitem_keys.
  destruct (existsb _ _) eqn:E; [assumption|].
  apply NoDup_app; [assumption | repeat constructor; intros [] | ].
  intros x Hx [<- | []].
  assert (existsb (fun k' => String.eqb k' k) (dict_keys d) = true); [|congruence].
  apply existsb_exists. exists k; split; [assumption | apply String.eqb_refl].
Qed.

Lemma dict_setitem_length {V : Type} (d : list (string * V)) k v :
  (List.length (dict_setitem d k v) <= S (List.length d))%nat.
Proof.
  induction d as [|[k' w] d IH]; simpl; [lia|].
  destruct (String.eqb k' k); simpl; lia.
Qed.

Lemma add_player_Ok net d player d' :
  add_player net d player = Ok d' ->
  exists name entry, player = JStr name /\ d' = dict_setitem d name entry.
Proof.
  destruct player; try discriminate. simpl.
  destruct (create_entry net s) as [entry|]; [simpl|discriminate].
  intros H; inversion H. eauto.
Qed.

(** What the inner loop does to the dictionary it is handed: the keys stay
    free of duplicates, the keys already there stay, and at most one entry
    per member is added. *)
Lemma add_players_Ok net players : forall d d',
  add_players net d players = Ok d' ->
  (NoDup (dict_keys d) -> NoDup (dict_keys d')) /\
  incl (dict_keys d) (dict_keys d') /\
  (List.length d' <= List.length d + List.length players)%nat.
Proof.
  induction players as [|player rest IH]; intros d d' H; simpl in H.
  - inversion H; subst. repeat split; auto using incl_refl. lia.
  - destruct (add_player net d player) as [d1|] eqn:E; [simpl in H|discriminate].
    destruct (add_player_Ok _ _ _ _ E) as [name [entry [-> ->]]].
    destruct (IH _ _ H) as [Hnd [Hincl Hlen]].
    repeat split.
    + intros Hd. apply Hnd, dict_setitem_NoDup, Hd.
    + eapply incl_tran; [apply dict_setitem_keeps_keys | exact Hincl].
    + pose proof (dict_setitem_length d name entry). simpl. lia.
Qed.

Lemma process_title_Ok net d title d' file :
  process_title net d title = Ok (d', file) ->
  rows file = d' /\ path file = "chess_data_" ++ title ++ ".csv" /\
  columns file = FEATURES /\
  exists members players,
    get_list_of_titled_players net title = Ok members /\
    py_iter members = Ok players /\
    add_players net d players = Ok d'.
Proof.
  unfold process_title.
  destruct (get_list_of_titled_players net title) as [members|] eqn:Hm;
    [simpl|discriminate].
  destruct (py_iter members) as [players|] eqn:Hp; [simpl|discriminate].
  destruct (add_players net d players) as [d1|] eqn:Ha; [simpl|discriminate].
  unfold set_columns. destruct (Nat.eqb _ _); [simpl|discriminate].
  unfold to_csv. destruct (to_csv_raises net _); [discriminate|simpl].
  intros H; inversion H; subst. simpl.
  do 3 (split; [reflexivity|]). exists members, players. auto.
Qed.

(** The dictionary is made once, before the loop over the titles: the file
    of the second title holds every row of the file of the first. *)
Lemma second_title_keeps_first_rows net t1 t2 files :
  create_data_frame net [t1; t2] = (files, Ok tt) ->
  exists f1 f2,
    files = [f1; f2] /\ incl (dict_keys (rows f1)) (dict_keys (rows f2)).
Proof.
  unfold create_data_frame; simpl.
  destruct (process_title net [] t1) as [[d1 f1]|] eqn:E1; [|discriminate].
  destruct (process_title net d1 t2) as [[d2 f2]|] eqn:E2; [|discriminate].
  intros H; inversion H; subst. exists f1, f2; split; [reflexivity|].
  destruct (process_title_Ok _ _ _ _ _ E1) as [-> _].
  destruct (process_title_Ok _ _ _ _ _ E2) as [-> [_ [_ [m [ps [_ [_ Hadd]]]]]]].
  apply (add_players_Ok _ _ _ _ Hadd).
Qed.

(** C3 (code defect): the run over the titles GM and IM, with the one
    member alice under GM and the one member bob under IM.  The file of IM
    has two rows, alice and bob: the dictionary was not emptied after GM. *)
Theorem dataset_is_carried_across_titles :
  snd (create_data_frame two_titles_network ["GM"; "IM"]) = Ok tt /\
  written_keys (fst (create_data_frame two_titles_network ["GM"; "IM"]))
  = [("chess_data_GM.csv", ["alice"]); ("chess_data_IM.csv", ["alice"; "bob"])] /\
  get_list_of_titled_players two_titles_network "IM"
  = Ok (JList [JStr "bob"]).
Proof.
  repeat split.
Qed.

Lemma create_entry_failed_fetch net player :
  stats_endpoint net player = None -> create_entry net player = Raise UnboundLocalError.
Proof.
  intros H. unfold create_entry, get_relevant_information, compute_stats.
  rewrite H. reflexivity.
Qed.

Lemma create_entry_failed_profile_fetch net player :
  profile_endpoint net player = None -> exists e, create_entry net player = Raise e.
Proof.
  intros H. unfold create_entry, get_other_data. rewrite H.
  destruct (get_relevant_information net player); eexists; reflexivity.
Qed.

Lemma add_players_failed_fetch net players p :
  In (JStr p) players ->
  stats_endpoint net p = None \/ profile_endpoint net p = None ->
  forall d, exists e, add_players net d players = Raise e.
Proof.
  intros Hin Hfail. induction players as [|player rest IH]; [contradiction|].
  intros d; simpl. destruct Hin as [-> | Hin].
  - simpl. destruct Hfail as [Hfail | Hfail].
    + rewrite (create_entry_failed_fetch _ _ Hfail). eexists; reflexivity.
    + destruct (create_entry_failed_profile_fetch _ _ Hfail) as [e ->].
      eexists; reflexivity.
  - destruct (add_player net d player) as [d1|e]; simpl.
    + apply IH; assumption.
    + eexists; reflexivity.
Qed.

(** C4 (code defect): when the statistics fetch or the profile fetch of one
    member of a title fails, the run does not skip that member and go on.
    The exception is printed, the unassigned local is read, and the
    UnboundLocalError this raises ends [create_data_frame]: no file is
    written for the title and the members after it are never fetched. *)
Theorem failed_stats_fetch_aborts_the_run (net : network) (title : string)
        (rest : list string) (members : json) (players : list json) (p : string) :
  get_list_of_titled_players net title = Ok members ->
  py_iter members = Ok players ->
  In (JStr p) players ->
  stats_endpoint net p = None \/ profile_endpoint net p = None ->
  (stats_endpoint net p = None -> create_entry net p = Raise UnboundLocalError) /\
  exists e, create_data_frame net (title :: rest) = ([], Raise e).
Proof.
  intros Hm Hp Hin Hfail. split; [apply create_entry_failed_fetch|].
  unfold create_data_frame; simpl. unfold process_title. rewrite Hm; simpl.
  rewrite Hp; simpl.
  destruct (add_players_failed_fetch net players p Hin Hfail []) as [e ->].
  exists e; reflexivity.
Qed.

Lemma failed_stats_fetch_aborts_the_run_witness :
  create_data_frame failing_fetch_network ["GM"] = ([], Raise UnboundLocalError) /\
  exists e, create_data_frame failing_fetch_network ["GM"; "IM"] = ([], Raise e).
Proof.
  split; [reflexivity|].
  apply (failed_stats_fetch_aborts_the_run
           failing_fetch_network "GM" ["IM"]
           (JList [JStr "alice"; JStr "bob"]) [JStr "alice"; JStr "bob"] "alice"
           eq_refl eq_refl (or_introl eq_refl) (or_introl eq_refl)).
Defined.

Ltac path_value := repeat first [apply kpv_end | eapply kpv_step; [reflexivity|]].
Ltac path_missing :=
  repeat first [apply kpm_here; reflexivity | eapply kpm_below; [reflexivity|]].
Ltac path_blocked :=
  repeat first [apply kpb_here; reflexivity | eapply kpb_below; [reflexivity|]].
Ltac each_stat_path H :=
  simpl in H; repeat (destruct H as [<- | H]); try contradiction.
Ltac concrete_nested_mappings :=
  let p := fresh "p" in
  let H := fresh "H" in
  intros p H; each_stat_path H;
  first [left; eexists; solve [path_value] | right; solve [path_missing]].

Lemma all_paths_missing_gives_defaults_witness :
  get_relevant_information
    (static_network None (Some (JDict [("chess_rapid", JDict [])])) None) "player"
  = Ok [JStr "0"; JStr "0"; JStr "0"; JStr "0";
        JStr "0"; JStr "0"; JStr "0"; JStr "0";
        JStr "0"; JStr "0"; JStr "0"; JStr "0";
        JStr "0"; JStr "0"].
Proof.
  apply (all_paths_missing_gives_defaults
           (static_network None (Some (JDict [("chess_rapid", JDict [])])) None)
           "player" (JDict [("chess_rapid", JDict [])]) eq_refl).
  intros p H; each_stat_path H; path_missing.
Defined.

Lemma per_speed_lookups_independent_witness :
  exists r,
    get_relevant_information
      (static_network None (Some blitz_rating_only_stats) None) "player" = Ok r /\
    nth_error r 4 = Some (JStr "2400") /\
    nth_error r 5 = Some (JStr "0").
Proof.
  destruct (proj2 (per_speed_lookups_independent
                     (static_network None (Some blitz_rating_only_stats) None)
                     "player" blitz_rating_only_stats eq_refl))
    as [r [Hr Hsp]]; [concrete_nested_mappings|].
  exists r. split; [exact Hr|].
  destruct (Hsp blitz) as [[Hrating _] [[_ Hwins] _]]. split.
  - apply (Hrating (JInt 2400)). unfold blitz_rating_only_stats. path_value.
  - apply Hwins. unfold blitz_rating_only_stats. path_missing.
Defined.

Lemma wrongly_typed_component_raises_witness :
  get_relevant_information
    (static_network None (Some rapid_is_a_number_stats) None) "player"
  = Raise TypeError.
Proof.
  apply (wrongly_typed_component_raises
           (static_network None (Some rapid_is_a_number_stats) None)
           "player" rapid_is_a_number_stats eq_refl).
  exists ["chess_rapid"; "best"; "rating"]. split; [in_list|].
  unfold rapid_is_a_number_stats. path_blocked.
Defined.

Lemma only_country_gives_defaults_witness :
  get_other_data (static_network None None (Some norway_profile)) "player"
  = Ok [JStr "NO"; JStr "No Location Data Available"; JStr "None"].
Proof.
  exact (proj1 (only_country_gives_defaults
                  (static_network None None (Some norway_profile)) "player"
                  [("country", JStr "https://api.chess.com/pub/country/NO")]
                  eq_refl eq_refl eq_refl)
               "https://api.chess.com/pub/country/NO" eq_refl).
Defined.

Lemma missing_country_raises_witness :
  get_other_data (static_network None (Some blitz_only_stats)
                                 (Some (JDict [("location", JStr "Oslo")]))) "player"
  = Raise KeyError /\
  create_entry (static_network None (Some blitz_only_stats)
                               (Some (JDict [("location", JStr "Oslo")]))) "player"
  = Raise KeyError.
Proof.
  destruct (proj1 (missing_country_raises
                     (static_network None (Some blitz_only_stats)
                                     (Some (JDict [("location", JStr "Oslo")])))
                     "player" blitz_only_stats [("location", JStr "Oslo")]
                     eq_refl eq_refl) eq_refl) as [Hother Hentry].
  split; [exact Hother|]. apply Hentry.
  unfold blitz_only_stats. concrete_nested_mappings.
Defined.

Lemma record_follows_schema_witness :
  create_entry (static_network None (Some blitz_only_stats) (Some norway_profile))
               "player"
  = Ok [JStr "0"; JStr "0"; JStr "0"; JStr "0";
        JStr "2400"; JStr "10"; JStr "2"; JStr "1";
        JStr "0"; JStr "0"; JStr "0"; JStr "0";
        JStr "0"; JStr "0";
        JStr "NO"; JStr "No Location Data Available"; JStr "None"] /\
  schema_record blitz_only_stats norway_profile
  = map Some [JStr "0"; JStr "0"; JStr "0"; JStr "0";
              JStr "2400"; JStr "10"; JStr "2"; JStr "1";
              JStr "0"; JStr "0"; JStr "0"; JStr "0";
              JStr "0"; JStr "0";
              JStr "NO"; JStr "No Location Data Available"; JStr "None"].
Proof.
  split; [reflexivity|].
  symmetry.
  apply (proj1 (proj2 (record_follows_schema
                         (static_network None (Some blitz_only_stats)
                                         (Some norway_profile))
                         "player" blitz_only_stats norway_profile
                         eq_refl eq_refl))).
  reflexivity.
Defined.

(* ===================================================================== *)
(** ** Outcomes of the fetch functions and of [create_entry] *)
(* ===================================================================== *)

Lemma get_relevant_information_from_blocked s :
  (exists p, In p stat_paths /\ key_path_blocked s p) ->
  get_relevant_information_from s = Raise TypeError.
Proof.
  intros [p [Hin Hb]]. destruct (in_stat_paths _ Hin) as [abc [Habc ->]].
  rewrite get_relevant_information_from_mapM.
  apply mapM_Raise with (x := abc); auto using stat_field_blocked.
  intros z _. destruct (stat_field_cases s z) as [[t Ht] | Ht]; eauto.
Qed.

Lemma get_relevant_information_from_Ok_nested s r :
  get_relevant_information_from s = Ok r -> nested_mappings s.
Proof.
  intros H. destruct (blocked_or_nested s) as [Hb | Hn]; [|assumption].
  rewrite (get_relevant_information_from_blocked _ Hb) in H. discriminate.
Qed.

Lemma is_mapping_false_subscript v key :
  is_mapping v = false -> subscript v key = Raise TypeError.
Proof. destruct v; simpl; intros H; try reflexivity; discriminate. Qed.

(** X1: [get_list_of_titled_players], every outcome: the value under [players]
    when the response is a mapping that has the key; UnboundLocalError after
    a failed fetch, KeyError for a mapping without the key, TypeError for a
    response that is not a mapping. *)
Theorem titled_players_outcomes (net : network) (title : string) :
  (forall v, get_list_of_titled_players net title = Ok v <->
             exists d, titled_endpoint net title = Some (JDict d) /\
                       dict_get d "players" = Some v) /\
  (forall e, get_list_of_titled_players net title = Raise e <->
             (titled_endpoint net title = None /\ e = UnboundLocalError) \/
             (exists d, titled_endpoint net title = Some (JDict d) /\
                        dict_get d "players" = None /\ e = KeyError) \/
             (exists v, titled_endpoint net title = Some v /\
                        is_mapping v = false /\ e = TypeError)).
Proof.
  unfold get_list_of_titled_players.
  destruct (titled_endpoint net title) as [v|]; simpl.
  - destruct v as [| b | z | f | t | l | d]; simpl;
      try (split;
           [ intros w; split; [discriminate | intros [d [E _]]; discriminate]
           | intros e; split;
             [ intros E; inversion E; right; right; eexists; repeat split
             | intros [[E _] | [[d [E _]] | [w [_ [_ ->]]]]];
               try discriminate; reflexivity ] ]).
    destruct (dict_get d "players") as [w|] eqn:Hd; split.
    + intros v; split.
      * intros E; inversion E; subst. exists d; auto.
      * intros [d' [E Hw]]. inversion E; subst d'. congruence.
    + intros e; split; [discriminate|].
      intros [[E _] | [[d' [E [Hn _]]] | [w' [E [Hm _]]]]]; try discriminate.
      * inversion E; subst d'. congruence.
      * inversion E; subst w'. discriminate.
    + intros v; split; [discriminate|].
      intros [d' [E Hw]]. inversion E; subst d'. congruence.
    + intros e; split.
      * intros E; inversion E. right; left. exists d; auto.
      * intros [[E _] | [[d' [_ [_ ->]]] | [w' [E [Hm _]]]]];
          try discriminate; try reflexivity.
        inversion E; subst w'. discriminate.
  - split.
    + intros v; split; [discriminate | intros [d [E _]]; discriminate].
    + intros e; split.
      * intros E; inversion E. left; auto.
      * intros [[_ ->] | [[d [E _]] | [w [E _]]]]; try discriminate; reflexivity.
Qed.

(** X2: [get_other_data], every way to fail: UnboundLocalError after a failed
    fetch, TypeError for a profile that is not a mapping, KeyError for a
    mapping without [country], AttributeError for a [country] that is not a
    string.  Nothing else raises, whatever [location] and [title] are. *)
Theorem get_other_data_failures (net : network) (player : string) (e : exn) :
  get_other_data net player = Raise e <->
  (profile_endpoint net player = None /\ e = UnboundLocalError) \/
  (exists v, profile_endpoint net player = Some v /\
             is_mapping v = false /\ e = TypeError) \/
  (exists d, profile_endpoint net player = Some (JDict d) /\
             dict_get d "country" = None /\ e = KeyError) \/
  (exists d v, profile_endpoint net player = Some (JDict d) /\
               dict_get d "country" = Some v /\
               is_string v = false /\ e = AttributeError).
Proof.
  unfold get_other_data.
  destruct (profile_endpoint net player) as [v|]; simpl.
  - destruct (is_mapping v) eqn:Hm.
    + destruct v as [| b | z | f | t | l | d]; try discriminate.
      rewrite get_other_data_from_dict.
      destruct (dict_get d "country") as [c|] eqn:Hc.
      * destruct (is_string c) eqn:Hs.
        -- destruct c; try discriminate. split; [discriminate|].
           intros [[E _] | [[w [E [Hw _]]] | [[d' [E [Hn _]]] | [d' [w [E [Hw [Hs' _]]]]]]]];
             try discriminate.
           ++ inversion E; subst w. discriminate.
           ++ inversion E; subst d'. congruence.
           ++ inversion E; subst d'. rewrite Hc in Hw. inversion Hw; subst w.
              discriminate.
        -- assert (Hr : match c with
                        | JStr c0 =>
                            Ok [JStr (strip_country c0);
                                or_default (dict_get d "location")
                                           "No Location Data Available";
                                or_default (dict_get d "title") "None"]
                        | _ => Raise AttributeError
                        end = Raise AttributeError)
             by (destruct c; try reflexivity; discriminate).
           rewrite Hr. split.
           ++ intros E; inversion E. right; right; right. exists d, c; auto.
           ++ intros [[E _] | [[w [E [Hw _]]] | [[d' [E [Hn _]]] | [d' [w [_ [_ [_ ->]]]]]]]];
                try discriminate; try reflexivity.
              ** inversion E; subst w. discriminate.
              ** inversion E; subst d'. congruence.
      * split.
        -- intros E; inversion E. right; right; left. exists d; auto.
        -- intros [[E _] | [[w [E [Hw _]]] | [[d' [_ [_ ->]]] | [d' [w [E [Hw _]]]]]]];
             try discriminate; try reflexivity.
           ++ inversion E; subst w. discriminate.
           ++ inversion E; subst d'. congruence.
    + assert (Hr : get_other_data_from v = Raise TypeError).
      { unfold get_other_data_from.
        rewrite (is_mapping_false_subscript _ _ Hm). reflexivity. }
      rewrite Hr. split.
      * intros E; inversion E. right; left. exists v; auto.
      * intros [[E _] | [[w [_ [_ ->]]] | [[d' [E _]] | [d' [w [E _]]]]]];
          try discriminate; try reflexivity;
          inversion E; subst v; discriminate.
  - split.
    + intros E; inversion E. left; auto.
    + intros [[_ ->] | [[w [E _]] | [[d' [E _]] | [d' [w [E _]]]]]];
        try discriminate; reflexivity.
Qed.

(** X3: [create_entry] returns a record exactly when both fetches succeed, no
    statistics path runs into a value that is not a mapping, and the
    profile is a mapping whose [country] is a string. *)
Theorem create_entry_succeeds_iff (net : network) (player : string) :
  (exists r, create_entry net player = Ok r) <-> player_ok net player.
Proof.
  unfold player_ok. split.
  - intros [r Hr]. unfold create_entry, get_relevant_information, compute_stats,
      get_other_data in Hr.
    destruct (stats_endpoint net player) as [stats|] eqn:Hs; [simpl in Hr|discriminate].
    destruct (get_relevant_information_from stats) as [r1|] eqn:H1;
      [simpl in Hr|discriminate].
    destruct (profile_endpoint net player) as [profile|] eqn:Hp;
      [simpl in Hr|discriminate].
    destruct (get_other_data_from profile) as [r2|] eqn:H2; [|discriminate].
    destruct (get_other_data_from_Ok _ _ H2) as [d [c [-> [Hc _]]]].
    exists stats, d, c. repeat split; auto.
    all: eapply get_relevant_information_from_Ok_nested; eassumption.
  - intros [stats [d [c [Hs [Hn [Hp Hc]]]]]].
    rewrite (create_entry_fetch _ _ _ _ Hs Hp). unfold create_entry_from.
    destruct (nested_mappings_Ok _ Hn) as [r1 ->].
    rewrite get_other_data_from_dict, Hc. eexists; reflexivity.
Qed.

(* ===================================================================== *)
(** ** The dictionary of one title *)
(* ===================================================================== *)

Lemma dict_get_setitem_same {V : Type} (d : list (string * V)) k v :
  dict_get (dict_setitem d k v) k = Some v.
Proof.
  induction d as [|[k0 w] d IH]; simpl.
  - rewrite String.eqb_refl. reflexivity.
  - destruct (String.eqb k0 k) eqn:E; simpl; rewrite E; auto.
Qed.

Lemma dict_get_setitem_other {V : Type} (d : list (string * V)) k k' v :
  k <> k' -> dict_get (dict_setitem d k v) k' = dict_get d k'.
Proof.
  intros Hne. induction d as [|[k0 w] d IH]; simpl.
  - destruct (String.eqb_spec k k'); [contradiction | reflexivity].
  - destruct (String.eqb_spec k0 k); simpl.
    + subst k0. destruct (String.eqb_spec k k'); [contradiction | reflexivity].
    + rewrite IH. reflexivity.
Qed.

Lemma add_player_Ok_entry net d player d' :
  add_player net d player = Ok d' ->
  exists name entry,
    player = JStr name /\ create_entry net name = Ok entry /\
    d' = dict_setitem d name entry.
Proof.
  destruct player; try discriminate. simpl.
  destruct (create_entry net s) as [entry|] eqn:E; [simpl|discriminate].
  intros H; inversion H. eauto.
Qed.

Lemma add_players_keeps_binding net players name entry : forall d d',
  create_entry net name = Ok entry ->
  dict_get d name = Some entry ->
  add_players net d players = Ok d' ->
  dict_get d' name = Some entry.
Proof.
  induction players as [|player rest IH]; intros d d' He Hd H; simpl in H.
  - inversion H; subst; assumption.
  - destruct (add_player net d player) as [d1|] eqn:E; [simpl in H|discriminate].
    destruct (add_player_Ok_entry _ _ _ _ E) as [n [entry0 [-> [He0 ->]]]].
    apply (IH (dict_setitem d n entry0) d' He); [|assumption].
    destruct (string_dec n name) as [-> | Hne].
    + rewrite He in He0. inversion He0; subst. apply dict_get_setitem_same.
    + rewrite dict_get_setitem_other; assumption.
Qed.

Lemma add_players_content (net : network) (players : list json) :
  forall d d' : dataset,
    add_players net d players = Ok d' ->
    (forall p, In p players ->
               exists name entry,
                 p = JStr name /\ create_entry net name = Ok entry /\
                 dict_get d' name = Some entry) /\
    (forall name, ~ In (JStr name) players -> dict_get d' name = dict_get d name).
Proof.
  induction players as [|player rest IH]; intros d d' H; simpl in H.
  - inversion H; subst. split; [intros p [] | reflexivity].
  - destruct (add_player net d player) as [d1|] eqn:E; [simpl in H|discriminate].
    destruct (add_player_Ok_entry _ _ _ _ E) as [n [entry0 [-> [He0 ->]]]].
    destruct (IH _ _ H) as [Hin Hout]. split.
    + intros p [<- | Hp]; [|auto].
      exists n, entry0. repeat split; [assumption|].
      eapply add_players_keeps_binding; eauto using dict_get_setitem_same.
    + intros name Hn. rewrite Hout by (intros Hr; apply Hn; right; assumption).
      apply dict_get_setitem_other. intros ->. apply Hn. left; reflexivity.
Qed.

(** X4: what the inner loop leaves in the dictionary: every member is a string
    and has the record [create_entry] gives for it (also when it is listed
    more than once), and the rows of everyone else are as they were. *)
Theorem dataset_content (net : network) (players : list json) (d d' : dataset) :
  add_players net d players = Ok d' ->
  (forall p, In p players ->
             exists name entry,
               p = JStr name /\ create_entry net name = Ok entry /\
               dict_get d' name = Some entry) /\
  (forall name, ~ In (JStr name) players -> dict_get d' name = dict_get d name).
Proof. apply add_players_content. Qed.

Lemma dataset_content_witness :
  exists d',
    add_players two_titles_network [("zed", [JNull])] [JStr "alice"] = Ok d' /\
    dict_get d' "zed" = Some [JNull] /\
    exists entry, create_entry two_titles_network "alice" = Ok entry /\
                  dict_get d' "alice" = Some entry.
Proof.
  eexists. split; [reflexivity|].
  destruct (dataset_content two_titles_network [JStr "alice"]
                            [("zed", [JNull])] _ eq_refl) as [Hin Hout].
  split.
  - rewrite (Hout "zed"); [reflexivity|].
    intros [E | []]; discriminate.
  - destruct (Hin (JStr "alice") (or_introl eq_refl)) as [n [entry [E [He Hd]]]].
    inversion E; subst n. exists entry; auto.
Defined.

Lemma nodup_app_skip (a b : list string) (n : string) :
  In n b -> nodup string_dec (a ++ n :: b) = nodup string_dec (a ++ b).
Proof.
  intros Hn. induction a as [|x a IH]; simpl.
  - destruct (in_dec string_dec n b); [reflexivity | contradiction].
  - rewrite IH.
    destruct (in_dec string_dec x (a ++ n :: b)) as [H1 | H1],
             (in_dec string_dec x (a ++ b)) as [H2 | H2]; try reflexivity.
    + exfalso. apply H2. apply in_app_iff in H1. apply in_app_iff.
      destruct H1 as [H1 | [<- | H1]]; auto.
    + exfalso. apply H1. apply in_app_iff in H2. apply in_app_iff.
      destruct H2 as [H2 | H2]; [left | right; right]; assumption.
Qed.

Lemma first_occurrences_NoDup (ks : list string) :
  NoDup ks -> first_occurrences ks = ks.
Proof.
  intros H. unfold first_occurrences.
  rewrite nodup_fixed_point by (apply NoDup_rev; assumption).
  apply rev_involutive.
Qed.

Lemma existsb_eqb_In (n : string) (ks : list string) :
  existsb (fun k' => String.eqb k' n) ks = true <-> In n ks.
Proof.
  rewrite existsb_exists. split.
  - intros [x [Hx E]]. apply String.eqb_eq in E. subst; assumption.
  - intros H. exists n. split; [assumption | apply String.eqb_refl].
Qed.

Lemma first_occurrences_step (ks ns : list string) (n : string) :
  first_occurrences (ks ++ n :: ns)
  = first_occurrences
      ((if existsb (fun k' => String.eqb k' n) ks then ks else ks ++ [n]) ++ ns)%list.
Proof.
  destruct (existsb _ ks) eqn:E.
  - apply existsb_eqb_In in E. unfold first_occurrences. f_equal.
    rewrite !rev_app_distr. simpl. rewrite <- app_assoc. simpl.
    apply nodup_app_skip. apply -> in_rev. assumption.
  - rewrite <- app_assoc. reflexivity.
Qed.

Lemma add_players_keys net names : forall d d',
  NoDup (dict_keys d) ->
  add_players net d (map JStr names) = Ok d' ->
  dict_keys d' = first_occurrences (dict_keys d ++ names).
Proof.
  induction names as [|n ns IH]; intros d d' Hnd H; simpl in H.
  - inversion H; subst. rewrite app_nil_r, first_occurrences_NoDup; auto.
  - destruct (create_entry net n) as [entry|]; [simpl in H|discriminate].
    rewrite (IH _ _ (dict_setitem_NoDup d n entry Hnd) H).
    rewrite dict_setitem_keys. symmetry. apply first_occurrences_step.
Qed.

Lemma first_occurrences_length (names : list string) :
  (List.length (first_occurrences names) <= List.length names)%nat.
Proof.
  unfold first_occurrences. rewrite length_rev.
  rewrite <- (length_rev names).
  induction (rev names) as [|x l IH]; simpl; [lia|].
  destruct (in_dec string_dec x l); simpl; lia.
Qed.

(* ===================================================================== *)
(** ** The loop over the titles *)
(* ===================================================================== *)

(** The files already written are only ever added to. *)
Lemma titles_loop_written net ts : forall d w,
  titles_loop net d w ts
  = ((w ++ fst (titles_loop net d [] ts))%list, snd (titles_loop net d [] ts)).
Proof.
  induction ts as [|t ts IH]; intros d w; simpl.
  - rewrite app_nil_r. reflexivity.
  - destruct (process_title net d t) as [[d1 f]|e]; simpl.
    + rewrite (IH d1 (w ++ [f])%list), (IH d1 [f]). simpl.
      rewrite <- app_assoc. reflexivity.
    + rewrite app_nil_r. reflexivity.
Qed.

Lemma titles_loop_cons net d t ts :
  titles_loop net d [] (t :: ts)
  = match process_title net d t with
    | Ok (d1, f) =>
        (f :: fst (titles_loop net d1 [] ts), snd (titles_loop net d1 [] ts))
    | Raise e => ([], Raise e)
    end.
Proof.
  simpl. destruct (process_title net d t) as [[d1 f]|e]; [|reflexivity].
  rewrite titles_loop_written. reflexivity.
Qed.


(** X5: the first file of a run has one row per member of its title, in the
    order of the membership list, a repeated member standing where it comes
    first: so it has no more rows than the list has entries. *)
Theorem first_file_follows_membership (net : network) (title : string)
        (rest : list string) (names : list string) (f : artifact) :
  get_list_of_titled_players net title = Ok (JList (map JStr names)) ->
  nth_error (fst (create_data_frame net (title :: rest))) 0 = Some f ->
  path f = csv_path title /\
  dict_keys (rows f) = first_occurrences names /\
  (List.length (rows f) <= List.length names)%nat.
Proof.
  intros Hm Hf. unfold create_data_frame in Hf. rewrite titles_loop_cons in Hf.
  destruct (process_title net [] title) as [[d1 f1]|] eqn:E; [|discriminate].
  simpl in Hf. inversion Hf; subst f1.
  destruct (process_title_Ok _ _ _ _ _ E) as [Hrows [Hpath [_ [m [ps [Hm' [Hps Hadd]]]]]]].
  rewrite Hm in Hm'. inversion Hm'; subst m. simpl in Hps. inversion Hps; subst ps.
  assert (Hk : dict_keys (rows f) = first_occurrences names).
  { rewrite Hrows. apply (add_players_keys net names [] d1); [constructor | assumption]. }
  split; [exact Hpath|]. split; [exact Hk|].
  unfold dict_keys in Hk. rewrite <- (length_map fst), Hk.
  apply first_occurrences_length.
Qed.

Lemma first_file_follows_membership_witness :
  exists f,
    nth_error (fst (create_data_frame repeated_member_network ["GM"])) 0 = Some f /\
    path f = "chess_data_GM.csv" /\
    dict_keys (rows f) = ["alice"; "bob"].
Proof.
  eexists. split; [reflexivity|].
  destruct (first_file_follows_membership
              repeated_member_network "GM" [] ["alice"; "bob"; "alice"] _
              eq_refl eq_refl) as [Hp [Hk _]].
  split; [exact Hp | exact Hk].
Defined.



(* ===================================================================== *)
(** ** What the files hold *)
(* ===================================================================== *)

Lemma create_entry_row_ok net player r :
  create_entry net player = Ok r -> row_ok r.
Proof.
  unfold create_entry, get_relevant_information, compute_stats, get_other_data.
  destruct (stats_endpoint net player) as [stats|]; [simpl|discriminate].
  destruct (get_relevant_information_from stats) as [r1|] eqn:H1; [simpl|discriminate].
  destruct (profile_endpoint net player) as [profile|]; [simpl|discriminate].
  destruct (get_other_data_from profile) as [r2|] eqn:H2; [simpl|discriminate].
  intros H; inversion H; subst r.
  destruct (get_other_data_from_Ok _ _ H2) as [d [c [_ [_ ->]]]].
  rewrite get_relevant_information_from_mapM in H1.
  apply mapM_Ok_Forall2 in H1. unfold stat_keys in H1. invert_Forall2.
  repeat match goal with
         | H : stat_field _ _ = Ok ?y |- _ =>
             apply stat_field_is_string in H; destruct y; try discriminate; clear H
         end.
  split; reflexivity.
Qed.

Lemma dict_setitem_Forall {V : Type} (P : V -> Prop) (d : list (string * V)) k v :
  Forall (fun kv => P (snd kv)) d -> P v ->
  Forall (fun kv => P (snd kv)) (dict_setitem d k v).
Proof.
  intros Hd Hv. induction Hd as [|[k0 w] d Hw Hd IH]; simpl.
  - constructor; [assumption | constructor].
  - destruct (String.eqb k0 k); constructor; auto.
Qed.

(** The rows of a dictionary are records, and its keys stay where they are. *)
Lemma add_players_rows net players : forall d d',
  add_players net d players = Ok d' ->
  (Forall (fun kv => row_ok (snd kv)) d -> Forall (fun kv => row_ok (snd kv)) d') /\
  keys_kept d d'.
Proof.
  induction players as [|player rest IH]; intros d d' H; simpl in H.
  - inversion H; subst. split; [auto|]. exists []. rewrite app_nil_r. reflexivity.
  - destruct (add_player net d player) as [d1|] eqn:E; [simpl in H|discriminate].
    destruct (add_player_Ok_entry _ _ _ _ E) as [n [entry [-> [He ->]]]].
    destruct (IH _ _ H) as [Hrows [more Hmore]]. split.
    + intros Hd. apply Hrows, dict_setitem_Forall; [assumption|].
      eapply create_entry_row_ok; eassumption.
    + rewrite dict_setitem_keys in Hmore.
      destruct (existsb _ (dict_keys d)).
      * exists more. exact Hmore.
      * exists ([n] ++ more)%list. rewrite Hmore, <- app_assoc. reflexivity.
Qed.

Lemma process_title_inv net d title d' file :
  process_title net d title = Ok (d', file) ->
  file = {| path := csv_path title; index_label := "player_name";
            columns := FEATURES; rows := d' |} /\
  frame_width d' = 17 /\
  to_csv_raises net (csv_path title) = None /\
  exists members players,
    get_list_of_titled_players net title = Ok members /\
    py_iter members = Ok players /\
    add_players net d players = Ok d'.
Proof.
  unfold process_title.
  destruct (get_list_of_titled_players net title) as [members|] eqn:Hm;
    [simpl|discriminate].
  destruct (py_iter members) as [players|] eqn:Hp; [simpl|discriminate].
  destruct (add_players net d players) as [d1|] eqn:Ha; [simpl|discriminate].
  unfold set_columns. destruct (Nat.eqb_spec (frame_width d1) (List.length FEATURES));
    [simpl|discriminate].
  unfold to_csv. destruct (to_csv_raises net _) eqn:Hw; [discriminate|simpl].
  intros H; inversion H; subst.
  split; [reflexivity|]. split; [assumption|]. split; [reflexivity|].
  exists members, players. auto.
Qed.

Lemma dict_inv_empty : dict_inv [].
Proof. split; constructor. Qed.

Lemma process_title_dict_inv net d title d' file :
  dict_inv d ->
  process_title net d title = Ok (d', file) ->
  dict_inv d' /\ keys_kept d d' /\ d' <> [].
Proof.
  intros [Hnd Hrows] H.
  destruct (process_title_inv _ _ _ _ _ H) as [_ [Hw [_ [m [ps [_ [_ Hadd]]]]]]].
  destruct (add_players_rows _ _ _ _ Hadd) as [Hr Hk].
  repeat split; auto.
  - apply (add_players_Ok _ _ _ _ Hadd); assumption.
  - intros ->. discriminate.
Qed.

Lemma keys_kept_trans (d1 d2 d3 : dataset) :
  keys_kept d1 d2 -> keys_kept d2 d3 -> keys_kept d1 d3.
Proof.
  intros [m1 H1] [m2 H2]. exists (m1 ++ m2)%list.
  rewrite H2, H1, <- app_assoc. reflexivity.
Qed.

Lemma titles_loop_files net ts : forall d,
  dict_inv d ->
  Forall (fun f => file_ok f /\ keys_kept d (rows f)) (fst (titles_loop net d [] ts)) /\
  ForallOrdPairs (fun f g => keys_kept (rows f) (rows g)) (fst (titles_loop net d [] ts)).
Proof.
  induction ts as [|t ts IH]; intros d Hd; rewrite ?titles_loop_cons.
  - simpl. split; constructor.
  - destruct (process_title net d t) as [[d1 f]|e] eqn:E; simpl;
      [|split; constructor].
    destruct (process_title_dict_inv _ _ _ _ _ Hd E) as [Hd1 [Hext Hne]].
    destruct (process_title_inv _ _ _ _ _ E) as [-> _].
    destruct (IH d1 Hd1) as [Hall Hord]. split.
    + constructor.
      * split; [|exact Hext]. destruct Hd1 as [Hnd Hrows].
        repeat split; assumption.
      * eapply Forall_impl; [|exact Hall]. intros g [Hg Hk].
        split; [assumption|]. eapply keys_kept_trans; eassumption.
    + constructor; [|assumption].
      eapply Forall_impl; [|exact Hall]. intros g [_ Hk]. exact Hk.
Qed.

(** X7: every file a run writes, whether the run ends well or not, has the
    index label [player_name] and the seventeen column names, at least one
    row, no player twice, and in every row seventeen fields of which the
    statistics and the country are strings. *)
Theorem written_files_are_well_formed (net : network) (titles : list string) :
  Forall file_ok (fst (create_data_frame net titles)).
Proof.
  unfold create_data_frame.
  destruct (titles_loop_files net titles [] dict_inv_empty) as [H _].
  eapply Forall_impl; [|exact H]. intros f [Hf _]. exact Hf.
Qed.

(** X8: a run never drops a player and never moves one: of any two files it
    writes, the later one starts with the players of the earlier one, in
    the same order, and has the players added since behind them. *)
Theorem players_are_carried_forward (net : network) (titles : list string) :
  ForallOrdPairs (fun f g => keys_kept (rows f) (rows g))
                 (fst (create_data_frame net titles)).
Proof.
  unfold create_data_frame.
  apply (titles_loop_files net titles [] dict_inv_empty).
Qed.

Lemma titles_loop_paths net ts : forall d,
  map path (fst (titles_loop net d [] ts))
  = map csv_path (firstn (List.length (fst (titles_loop net d [] ts))) ts) /\
  (snd (titles_loop net d [] ts) = Ok tt ->
   List.length (fst (titles_loop net d [] ts)) = List.length ts) /\
  (forall e, snd (titles_loop net d [] ts) = Raise e ->
             (List.length (fst (titles_loop net d [] ts)) < List.length ts)%nat).
Proof.
  induction ts as [|t ts IH]; intros d; rewrite ?titles_loop_cons.
  - simpl. repeat split; auto. discriminate.
  - destruct (process_title net d t) as [[d1 f]|e] eqn:E; simpl.
    + destruct (process_title_inv _ _ _ _ _ E) as [-> _]. simpl.
      destruct (IH d1) as [Hp [Hok Hraise]]. repeat split.
      * f_equal. exact Hp.
      * intros H. f_equal. auto.
      * intros e H. specialize (Hraise e H). lia.
    + repeat split; [discriminate | intros; lia].
Qed.

(** X9: the files come in the order of the titles, one per title, each named
    after its title, up to the title at which the run ended: all of them
    when the run ends well, fewer when it raises.  For the call at the end
    of the module these are the ten files of [FIDE_TITLES]. *)
Theorem written_files_follow_titles (net : network) (titles : list string) :
  map path (fst (create_data_frame net titles))
  = map csv_path
        (firstn (List.length (fst (create_data_frame net titles))) titles) /\
  (snd (create_data_frame net titles) = Ok tt ->
   map path (fst (create_data_frame net titles)) = map csv_path titles) /\
  (forall e, snd (create_data_frame net titles) = Raise e ->
             (List.length (fst (create_data_frame net titles))
              < List.length titles)%nat) /\
  (snd (main net) = Ok tt ->
   map path (fst (main net))
   = ["chess_data_GM.csv"; "chess_data_WGM.csv"; "chess_data_IM.csv";
      "chess_data_WIM.csv"; "chess_data_FM.csv"; "chess_data_WFM.csv";
      "chess_data_NM.csv"; "chess_data_WNM.csv"; "chess_data_CM.csv";
      "chess_data_WCM.csv"]).
Proof.
  assert (Hgen : forall ts,
             snd (create_data_frame net ts) = Ok tt ->
             map path (fst (create_data_frame net ts)) = map csv_path ts).
  { intros ts H. unfold create_data_frame in *.
    destruct (titles_loop_paths net ts []) as [Hp [Hok _]].
    rewrite Hp, (Hok H), firstn_all. reflexivity. }
  unfold create_data_frame in *.
  destruct (titles_loop_paths net titles []) as [Hp [Hok Hraise]].
  split; [exact Hp|]. split; [apply Hgen|]. split; [exact Hraise|].
  intros H. apply (Hgen FIDE_TITLES H).
Qed.

Lemma written_files_follow_titles_witness :
  map path (fst (create_data_frame two_titles_network ["GM"; "IM"]))
  = ["chess_data_GM.csv"; "chess_data_IM.csv"] /\
  (List.length (fst (create_data_frame failing_fetch_network ["GM"; "IM"])) < 2)%nat.
Proof.
  split.
  - exact (proj1 (proj2 (written_files_follow_titles two_titles_network ["GM"; "IM"]))
                 eq_refl).
  - exact (proj1 (proj2 (proj2 (written_files_follow_titles
                                  failing_fetch_network ["GM"; "IM"])))
                 UnboundLocalError eq_refl).
Defined.

(* ===================================================================== *)
(** ** When the run goes through *)
(* ===================================================================== *)

Lemma player_ok_create_entry net player :
  player_ok net player -> exists r, create_entry net player = Ok r.
Proof.
  intros [stats [d [c [Hs [Hn [Hp Hc]]]]]].
  rewrite (create_entry_fetch _ _ _ _ Hs Hp). unfold create_entry_from.
  destruct (nested_mappings_Ok _ Hn) as [r1 ->].
  rewrite get_other_data_from_dict, Hc. eexists; reflexivity.
Qed.

Lemma add_players_total net names :
  (forall name, In name names -> player_ok net name) ->
  forall d, exists d', add_players net d (map JStr names) = Ok d'.
Proof.
  induction names as [|n ns IH]; intros H d; simpl.
  - eexists; reflexivity.
  - destruct (player_ok_create_entry net n (H n (or_introl eq_refl))) as [r ->].
    simpl. apply IH. intros; apply H; right; assumption.
Qed.

Lemma frame_width_rows (d : dataset) :
  Forall (fun kv => row_ok (snd kv)) d -> d <> [] -> frame_width d = 17.
Proof.
  intros H. induction H as [|kv d [Hlen _] Hd IH]; intros Hne; [contradiction|].
  simpl. rewrite Hlen. destruct d as [|kv' d'].
  - reflexivity.
  - rewrite IH by discriminate. reflexivity.
Qed.

Lemma process_title_total net d title names :
  title_ok net title names ->
  to_csv_raises net (csv_path title) = None ->
  dict_inv d ->
  d <> [] \/ names <> [] ->
  exists d' f, process_title net d title = Ok (d', f) /\ dict_inv d' /\ d' <> [].
Proof.
  intros [[m [Hm Hplayers]] Hok] Hcsv Hd Hne.
  destruct (add_players_total net names Hok d) as [d' Hadd].
  assert (Hne' : d' <> []).
  { destruct Hne as [Hne | Hne].
    - destruct d as [|[k v] d0]; [contradiction|].
      assert (Hin : In k (dict_keys d'))
        by (apply (add_players_Ok _ _ _ _ Hadd); left; reflexivity).
      intros ->. contradiction.
    - destruct names as [|n ns]; [contradiction|].
      destruct (proj1 (add_players_content _ _ _ _ Hadd) (JStr n) (or_introl eq_refl))
        as [n' [entry [_ [_ Hget]]]].
      intros ->. discriminate. }
  assert (Hrows : Forall (fun kv => row_ok (snd kv)) d')
    by (apply (add_players_rows _ _ _ _ Hadd), Hd).
  assert (H : process_title net d title
              = Ok (d', {| path := csv_path title;
                           index_label := "player_name";
                           columns := FEATURES; rows := d' |})).
  { unfold process_title, get_list_of_titled_players. rewrite Hm; simpl.
    rewrite Hplayers; simpl. rewrite Hadd; simpl.
    unfold set_columns. rewrite (frame_width_rows _ Hrows Hne').
    unfold to_csv, csv_path in *. simpl in Hcsv. simpl. rewrite Hcsv. reflexivity. }
  eexists _, _. split; [exact H|].
  split; [|assumption]. eapply process_title_dict_inv; eassumption.
Qed.

Lemma titles_loop_total net ts : forall d,
  dict_inv d -> d <> [] ->
  (forall t, In t ts ->
             to_csv_raises net (csv_path t) = None /\
             exists names, title_ok net t names) ->
  snd (titles_loop net d [] ts) = Ok tt.
Proof.
  induction ts as [|t ts IH]; intros d Hd Hne Hall; [reflexivity|].
  rewrite titles_loop_cons.
  destruct (Hall t (or_introl eq_refl)) as [Hcsv [names Hnames]].
  destruct (process_title_total net d t names Hnames Hcsv Hd (or_introl Hne))
    as [d' [f [-> [Hd' Hne']]]].
  simpl. apply IH; auto. intros; apply Hall; right; assumption.
Qed.

(** X10: when the first title has at least one member, every title answers
    with a mapping whose [players] is a list of names, each of a player whose
    two fetches succeed, whose statistics are nested mappings and whose
    profile is a mapping with a country string, and writing the file of each
    title does not raise, then [create_data_frame] returns None and has
    written one file per title. *)
Theorem run_goes_through (net : network) (title : string) (names : list string)
        (rest : list string) :
  names <> [] ->
  title_ok net title names ->
  (forall t, In t rest -> exists ns, title_ok net t ns) ->
  (forall t, In t (title :: rest) -> to_csv_raises net (csv_path t) = None) ->
  snd (create_data_frame net (title :: rest)) = Ok tt /\
  map path (fst (create_data_frame net (title :: rest)))
  = map csv_path (title :: rest).
Proof.
  intros Hne Htitle Hrest Hcsv.
  assert (Hok : snd (create_data_frame net (title :: rest)) = Ok tt).
  { unfold create_data_frame. rewrite titles_loop_cons.
    destruct (process_title_total net [] title names Htitle
                                  (Hcsv title (or_introl eq_refl)) dict_inv_empty
                                  (or_intror Hne)) as [d' [f [-> [Hd' Hne']]]].
    simpl. apply titles_loop_total; try assumption.
    intros t Ht. split; [apply Hcsv; right; assumption | apply Hrest; assumption]. }
  split; [exact Hok|].
  unfold create_data_frame in *.
  destruct (titles_loop_paths net (title :: rest) []) as [Hp [Hlen _]].
  rewrite Hp, (Hlen Hok), firstn_all. reflexivity.
Qed.

Lemma two_titles_title_ok (title name : string) :
  titled_endpoint two_titles_network title = players_response [name] ->
  title_ok two_titles_network title [name].
Proof.
  intros H. split.
  - eexists. split; [exact H | reflexivity].
  - intros n _. exists (JDict []), [("country", JStr "https://api.chess.com/pub/country/NO")],
      "https://api.chess.com/pub/country/NO".
    repeat split. concrete_nested_mappings.
Qed.

Lemma run_goes_through_witness :
  snd (create_data_frame two_titles_network ["GM"; "IM"]) = Ok tt /\
  map path (fst (create_data_frame two_titles_network ["GM"; "IM"]))
  = ["chess_data_GM.csv"; "chess_data_IM.csv"].
Proof.
  apply (run_goes_through two_titles_network "GM" ["alice"] ["IM"]).
  - discriminate.
  - apply two_titles_title_ok. reflexivity.
  - intros t [<- | []]. exists ["bob"]. apply two_titles_title_ok. reflexivity.
  - intros t _. reflexivity.
Defined.

(** Without the last hypothesis the run does not go through: a title whose
    file cannot be written ends it with the exception of [to_csv]. *)
Example unwritable_file_ends_the_run :
  create_data_frame unwritable_file_network ["a/b"; "GM"] = ([], Raise OSError).
Proof. reflexivity. Qed.

(** X11: a first title without members ends the run with ValueError and without
    a file: the frame built from the empty dictionary has no columns, and
    giving it the seventeen column names fails. *)
Theorem empty_first_title_raises (net : network) (title : string)
        (rest : list string) (members : json) :
  get_list_of_titled_players net title = Ok members ->
  py_iter members = Ok [] ->
  create_data_frame net (title :: rest) = ([], Raise ValueError).
Proof.
  intros Hm Hp. unfold create_data_frame. rewrite titles_loop_cons.
  unfold process_title. rewrite Hm; simpl. rewrite Hp. reflexivity.
Qed.

Lemma empty_first_title_raises_witness :
  create_data_frame repeated_member_network ["IM"; "GM"] = ([], Raise ValueError).
Proof.
  exact (empty_first_title_raises repeated_member_network "IM" ["GM"]
                                  (JList []) eq_refl eq_refl).
Defined.

(* ===================================================================== *)
(** ** More on the country code *)
(* ===================================================================== *)

Lemma string_length_append (a b : string) :
  String.length (a ++ b) = String.length a + String.length b.
Proof. induction a as [|c a IH]; simpl; auto. Qed.

(** Replacing by something no longer than [old] never lengthens the text,
    and shortens it when [old] occurs and the replacement is shorter. *)
Lemma replace_nonempty_length (o : ascii) (olds new : string) (n : nat) :
  String.length new <= String.length (String o olds) ->
  forall s,
    String.length s <= n ->
    String.length (replace_nonempty (String o olds) new s) <= String.length s /\
    (String.length new < String.length (String o olds) ->
     occurs (String o olds) s = true ->
     String.length (replace_nonempty (String o olds) new s) < String.length s).
Proof.
  intros Hnew. induction n as [|n IH]; intros s Hs.
  - destruct s; [|simpl in Hs; lia]. simp replace_nonempty. split; [lia|].
    intros _ H. discriminate.
  - destruct s as [|c rest]; [simp replace_nonempty; split; [lia | discriminate]|].
    simp replace_nonempty. cbn [occurs].
    destruct (String.prefix (String o olds) (String c rest)) eqn:Hp; simpl.
    + destruct (prefix_split _ _ Hp) as [b Hb]. simpl in Hb. inversion Hb; subst.
      rewrite Nat.sub_0_r, string_drop_append, !string_length_append.
      destruct (IH b) as [Hle _].
      { simpl in Hs. rewrite string_length_append in Hs. lia. }
      simpl in *. split; lia.
    + destruct (IH rest) as [Hle Hlt]; [simpl in Hs; lia|].
      split; [lia|]. intros Hshort Hocc. specialize (Hlt Hshort Hocc). lia.
Qed.

Lemma string_append_nil_r (a : string) : a ++ "" = a.
Proof. induction a as [|x a IH]; simpl; [reflexivity | rewrite IH; reflexivity]. Qed.

Lemma string_append_assoc (a b c : string) : (a ++ b) ++ c = a ++ b ++ c.
Proof. induction a as [|x a IH]; simpl; [reflexivity | rewrite IH; reflexivity]. Qed.

Lemma string_drop_append_le (k : nat) (a b : string) :
  k <= String.length a -> string_drop k (a ++ b) = string_drop k a ++ b.
Proof.
  revert a; induction k as [|k IH]; intros a H; [reflexivity|].
  destruct a as [|x a]; simpl in *; [lia|]. apply IH. lia.
Qed.

Lemma string_drop_length_eq (k : nat) (s : string) :
  String.length (string_drop k s) = String.length s - k.
Proof.
  revert s; induction k as [|k IH]; intros [|x s]; simpl; auto; lia.
Qed.

Lemma prefix_append_mono (p x y : string) :
  String.prefix p x = true -> String.prefix p (x ++ y) = true.
Proof.
  intros H. destruct (prefix_split _ _ H) as [b ->].
  rewrite string_append_assoc. apply prefix_append.
Qed.

Lemma append_eq_prefix (a x : string) : forall u y,
  a ++ x = u ++ y -> String.length a <= String.length u -> String.prefix a u = true.
Proof.
  induction a as [|c a IH]; intros u y E Hlen.
  - destruct u; reflexivity.
  - destruct u as [|c' u]; simpl in *; [lia|].
    inversion E; subst c'. destruct (ascii_dec c c); [|congruence].
    eapply IH; [eassumption | lia].
Qed.

(** An occurrence of an unbordered [p] cannot begin inside text that is
    free of [p] and run on into an occurrence that follows it. *)
Lemma no_straddle (p c rest : string) :
  unbordered p = true -> c <> "" -> occurs p c = false ->
  String.prefix p (c ++ p ++ rest) = false.
Proof.
  intros Hu Hc Hfree. destruct (String.prefix p (c ++ p ++ rest)) eqn:E; [|reflexivity].
  exfalso. destruct (prefix_split _ _ E) as [b Hb].
  destruct (le_lt_dec (String.length p) (String.length c)) as [Hle | Hlt].
  - assert (Hp : String.prefix p c = true)
      by (eapply append_eq_prefix; [symmetry; exact Hb | exact Hle]).
    rewrite (occurs_prefix _ _ Hp) in Hfree. discriminate.
  - assert (Hk : 1 <= String.length c) by (destruct c; [contradiction | simpl; lia]).
    apply (f_equal (string_drop (String.length c))) in Hb.
    rewrite string_drop_append, string_drop_append_le in Hb by lia.
    assert (Hp : String.prefix (string_drop (String.length c) p) p = true).
    { eapply append_eq_prefix; [symmetry; exact Hb|].
      rewrite string_drop_length_eq. lia. }
    unfold unbordered in Hu. rewrite forallb_forall in Hu.
    specialize (Hu (String.length c)). rewrite Hp in Hu.
    assert (In (String.length c) (seq 1 (String.length p - 1)))
      by (apply in_seq; lia).
    specialize (Hu H). discriminate.
Qed.

(** Text free of [old], then [old]: the text is copied, [old] is replaced,
    and the scan goes on behind it. *)
Lemma replace_nonempty_piece (o : ascii) (olds new c rest : string) :
  unbordered (String o olds) = true ->
  occurs (String o olds) c = false ->
  replace_nonempty (String o olds) new (c ++ String o olds ++ rest)
  = c ++ new ++ replace_nonempty (String o olds) new rest.
Proof.
  intros Hu. induction c as [|a c IH]; intros Hfree.
  - apply replace_nonempty_head.
  - assert (Hno : String.prefix (String o olds) (String a (c ++ String o olds ++ rest))
                  = false)
      by (apply (no_straddle _ (String a c) rest Hu); [discriminate | exact Hfree]).
    cbn [occurs] in Hfree. apply orb_false_iff in Hfree. destruct Hfree as [_ Hc].
    change (String a c ++ String o olds ++ rest)
      with (String a (c ++ String o olds ++ rest)).
    simp replace_nonempty. rewrite Hno.
    cbn [replace_nonempty_unfold_clause_2]. rewrite (IH Hc). reflexivity.
Qed.

Lemma unbordered_country_prefix : unbordered country_prefix = true.
Proof. reflexivity. Qed.

(** Stripping drops the prefix between the pieces and nothing else. *)
Lemma strip_country_join (pieces : list string) :
  Forall (fun c => occurs country_prefix c = false) pieces ->
  strip_country (join country_prefix pieces) = join "" pieces.
Proof.
  induction 1 as [|c rest Hc Hrest IH]; [reflexivity|].
  destruct rest as [|c2 rest].
  - apply strip_country_absent. exact Hc.
  - change (join country_prefix (c :: c2 :: rest))
      with (c ++ country_prefix ++ join country_prefix (c2 :: rest)).
    change (join "" (c :: c2 :: rest)) with (c ++ "" ++ join "" (c2 :: rest)).
    rewrite <- IH. unfold strip_country, str_replace, country_prefix.
    apply replace_nonempty_piece; [exact unbordered_country_prefix | exact Hc].
Qed.

Lemma occurs_split_first (o : ascii) (olds s : string) :
  occurs (String o olds) s = true ->
  exists a b, s = a ++ String o olds ++ b /\ occurs (String o olds) a = false.
Proof.
  induction s as [|c s IH]; cbn [occurs]; rewrite orb_true_iff; intros [H | H];
    try discriminate.
  - apply prefix_split in H. destruct H as [b ->]. exists "", b. split; reflexivity.
  - destruct (String.prefix (String o olds) (String c s)) eqn:Hp.
    + apply prefix_split in Hp. destruct Hp as [b ->]. exists "", b. split; reflexivity.
    + destruct (IH H) as [a [b [-> Ha]]]. exists (String c a), b.
      split; [reflexivity|]. cbn [occurs]. rewrite Ha, orb_false_r.
      destruct (String.prefix (String o olds) (String c a)) eqn:Hpa; [|reflexivity].
      apply (prefix_append_mono _ _ (String o olds ++ b)) in Hpa.
      simpl in Hpa, Hp. congruence.
Qed.

(** Every text is pieces free of the prefix with the prefix between them. *)
Lemma country_pieces (s : string) :
  exists pieces,
    pieces <> [] /\
    Forall (fun c => occurs country_prefix c = false) pieces /\
    s = join country_prefix pieces.
Proof.
  remember (String.length s) as n eqn:Hn.
  revert s Hn. induction n as [n IH] using lt_wf_ind. intros s Hn.
  destruct (occurs country_prefix s) eqn:Ho.
  - destruct (occurs_split_first _ _ _ Ho) as [a [b [-> Ha]]].
    destruct (IH (String.length b)) with (s := b) as [ps [Hne [Hfree Hb]]];
      [|reflexivity|].
    { subst n. rewrite !string_length_append. simpl. lia. }
    exists (a :: ps). split; [discriminate|]. split; [constructor; assumption|].
    destruct ps as [|c2 ps]; [contradiction|]. rewrite Hb. reflexivity.
  - exists [s]. split; [discriminate|]. split; [|reflexivity].
    constructor; [exact Ho | constructor].
Qed.

Lemma strip_country_fixed (c : string) :
  strip_country c = c <-> occurs country_prefix c = false.
Proof.
  split; [|apply strip_country_absent].
  intros E. destruct (occurs country_prefix c) eqn:Ho; [|reflexivity].
  assert (Hl : String.length (strip_country c) < String.length c).
  { apply (replace_nonempty_length
             "h"%char "ttps://api.chess.com/pub/country/" ""
             (String.length c) (Nat.le_0_l _) c (Nat.le_refl _));
      [simpl; lia | exact Ho]. }
  rewrite E in Hl. lia.
Qed.

(** C5, amended: country extraction removes every occurrence of the prefix.
    Every country text is pieces free of the prefix with the prefix between
    them, and [get_other_data] returns the pieces joined without it; so
    ["https://api.chess.com/pub/country/US"] yields ["US"].  Stripping once
    more leaves the result unchanged exactly when the joined pieces are free
    of the prefix: always for a text with a single piece or with the prefix
    only in front of or behind a piece free of it, and not when two pieces
    join into a new occurrence. *)
Theorem country_prefix_stripped :
  strip_country "https://api.chess.com/pub/country/US" = "US" /\
  (forall d c, dict_get d "country" = Some (JStr c) ->
               exists location title,
                 get_other_data_from (JDict d)
                 = Ok [JStr (strip_country c); location; title]) /\
  (forall s, exists pieces,
        pieces <> [] /\
        Forall (fun c => occurs country_prefix c = false) pieces /\
        s = join country_prefix pieces) /\
  (forall pieces,
      Forall (fun c => occurs country_prefix c = false) pieces ->
      strip_country (join country_prefix pieces) = join "" pieces /\
      (strip_country (strip_country (join country_prefix pieces))
       = strip_country (join country_prefix pieces)
       <-> occurs country_prefix (join "" pieces) = false)) /\
  (forall code,
      occurs country_prefix code = false ->
      strip_country code = code /\
      strip_country (country_prefix ++ code) = code /\
      strip_country (code ++ country_prefix) = code /\
      strip_country (strip_country (country_prefix ++ code))
      = strip_country (country_prefix ++ code)).
Proof.
  split; [reflexivity|]. split; [|split; [exact country_pieces|split]].
  - intros d c Hc. rewrite get_other_data_from_dict, Hc. eauto.
  - intros pieces Hfree. rewrite (strip_country_join _ Hfree).
    split; [reflexivity | apply strip_country_fixed].
  - intros code Hfree.
    assert (Hempty : occurs country_prefix "" = false) by reflexivity.
    assert (H1 : strip_country (country_prefix ++ code) = code).
    { apply (strip_country_join [""; code]). repeat constructor; assumption. }
    assert (H2 : strip_country (code ++ country_prefix) = code).
    { assert (H : strip_country (join country_prefix [code; ""]) = join "" [code; ""])
        by (apply strip_country_join; repeat constructor; assumption).
      cbn [join] in H. change ("" ++ "") with "" in H.
      rewrite !string_append_nil_r in H. exact H. }
    repeat split; auto using strip_country_absent.
    rewrite H1. apply strip_country_absent; assumption.
Qed.

Lemma country_prefix_stripped_witness :
  strip_country (country_prefix ++ "see " ++ country_prefix ++ "US") = "see US" /\
  strip_country (strip_country (country_prefix ++ "see " ++ country_prefix ++ "US"))
  = strip_country (country_prefix ++ "see " ++ country_prefix ++ "US") /\
  strip_country "US" = "US".
Proof.
  destruct country_prefix_stripped as [_ [_ [_ [Hjoin Hcode]]]].
  destruct (Hjoin [""; "see "; "US"]) as [Hstrip Hidem];
    [repeat constructor|].
  split; [exact Hstrip|]. split.
  - apply Hidem. reflexivity.
  - exact (proj1 (Hcode "US" eq_refl)).
Defined.

(** X13: the country text comes out unchanged exactly when the prefix does not
    occur in it, and it never comes out longer. *)
Theorem strip_country_changes_iff_occurs (c : string) :
  (strip_country c = c <-> occurs country_prefix c = false) /\
  String.length (strip_country c) <= String.length c.
Proof.
  assert (H := replace_nonempty_length
                 "h"%char "ttps://api.chess.com/pub/country/" ""
                 (String.length c) (Nat.le_0_l _) c (Nat.le_refl _)).
  change (String "h" "ttps://api.chess.com/pub/country/") with country_prefix in H.
  change (replace_nonempty country_prefix "" c) with (strip_country c) in H.
  destruct H as [Hle Hlt]. split; [|exact Hle]. split.
  - intros E. destruct (occurs country_prefix c) eqn:Ho; [|reflexivity].
    assert (Hl : String.length (strip_country c) < String.length c)
      by (apply Hlt; [simpl; lia | reflexivity]).
    rewrite E in Hl. lia.
  - apply strip_country_absent.
Qed.

Lemma strip_country_changes_iff_occurs_witness :
  strip_country "US" = "US" /\
  strip_country "see https://api.chess.com/pub/country/US" <>
  "see https://api.chess.com/pub/country/US".
Proof.
  split.
  - exact (proj2 (proj1 (strip_country_changes_iff_occurs "US")) eq_refl).
  - intros E.
    pose proof (proj1 (proj1 (strip_country_changes_iff_occurs
                                "see https://api.chess.com/pub/country/US")) E) as H.
    discriminate H.
Defined.

Lemma titled_players_outcomes_witness :
  get_list_of_titled_players two_titles_network "FM" = Raise UnboundLocalError /\
  get_list_of_titled_players two_titles_network "IM" = Ok (JList [JStr "bob"]).
Proof.
  destruct (titled_players_outcomes two_titles_network "FM") as [_ Hfm].
  destruct (titled_players_outcomes two_titles_network "IM") as [Him _].
  split.
  - apply Hfm. left. split; reflexivity.
  - apply Him. eexists. split; reflexivity.
Defined.

Lemma get_other_data_failures_witness :
  get_other_data (static_network None None (Some (JDict [("country", JInt 47)])))
                 "player"
  = Raise AttributeError.
Proof.
  apply get_other_data_failures. right; right; right.
  exists [("country", JInt 47)], (JInt 47). repeat split.
Defined.

Lemma create_entry_succeeds_iff_witness :
  exists r, create_entry two_titles_network "alice" = Ok r.
Proof.
  apply create_entry_succeeds_iff.
  exists (JDict []), [("country", JStr "https://api.chess.com/pub/country/NO")],
    "https://api.chess.com/pub/country/NO".
  repeat split. concrete_nested_mappings.
Defined.
